(** * Sensybull mobile client: gateway, feed pagers and chat session

    A shallow embedding of the client/data layer of the Sensybull
    React Native application:

    - [Api]        app/services/api.ts (token store and REST gateway);
    - [HomeFeed]   app/(tabs)/index.tsx, the searchable single-list home
                   screen ([loadArticles], [handleSearch]);
    - [TopicFeed]  app/(tabs)/index.tsx, the topic-tabbed home screen
                   ([loadArticlesForTopic], [handleLoadMore]);
    - [StockFeed]  app/stock/[symbol].tsx ([loadArticles]);
    - [SwipeDeck]  app/(tabs)/swipe.tsx, the card-deck screen
                   ([handleSwiped], [handleSwipedAll]);
    - [JsonText]   the [JSON.parse] the chat screen relies on;
    - [Groq]       app/services/groq.ts, the message types;
    - [Chat]       app/chat.tsx ([ChatScreen], [handleSendMessage]).

    Conventions of the embedding.  An [async] function is split at its
    [await]: the part that runs synchronously when the function is called
    (suffix [_begin]) yields the request that is issued, and the
    continuation that runs when the promise settles (suffix [_end]) takes
    the outcome.  Values a continuation reads from the closure of the
    render in which the call was made are passed to it explicitly.
    React state is a record, a state setter is a record update; between two
    events the screen has rendered again, so that an event handler reads the
    state the previous event left.
    Strings are sequences of 8-bit characters; the case and white-space
    functions are the ASCII ones. *)

From stdpp Require Import gmap strings list pretty.
From Stdlib Require Import ZArith Ascii.

Set Warnings "-register-all".
Local Open Scope Z_scope.

(** ** JavaScript values and string primitives *)

Module Js.

(** [String.prototype.toUpperCase], on the ASCII letters. *)
Definition toUpperCase_char (c : ascii) : ascii :=
  let n := N_of_ascii c in
  if ((97 <=? n) && (n <=? 122))%N then ascii_of_N (n - 32) else c.

Fixpoint toUpperCase (s : string) : string :=
  match s with
  | EmptyString => EmptyString
  | String c s' => String (toUpperCase_char c) (toUpperCase s')
  end.

Definition is_lower (c : ascii) : bool :=
  let n := N_of_ascii c in ((97 <=? n) && (n <=? 122))%N.

Fixpoint has_lower (s : string) : bool :=
  match s with
  | EmptyString => false
  | String c s' => is_lower c || has_lower s'
  end.

(** [String.prototype.trim]. *)
Fixpoint trimStart (s : string) : string :=
  match s with
  | EmptyString => EmptyString
  | String c s' => if Ascii.is_space c then trimStart s' else s
  end.

Definition trimEnd (s : string) : string :=
  String.rev (trimStart (String.rev s)).

Definition trim (s : string) : string := trimEnd (trimStart s).

(** Truthiness of a string: every string but the empty one. *)
Definition truthy_str (s : string) : bool := bool_decide (s ≠ "").

(** [a || b] on strings. *)
Definition or_str (a b : string) : string := if truthy_str a then a else b.

(** [Array.prototype.join]. *)
Fixpoint join (sep : string) (l : list string) : string :=
  match l with
  | [] => ""
  | [x] => x
  | x :: l' => x +:+ sep +:+ join sep l'
  end.

(** [Number.prototype.toString] on the integers. *)
Definition Number_toString (n : Z) : string := pretty n.

(** Parsed JSON.  A number [JNum m e] stands for [m * 10^e]; an object keeps
    its members in source order. *)
Inductive Json : Type :=
| JNull
| JBool (b : bool)
| JNum (m e : Z)
| JStr (s : string)
| JArr (items : list Json)
| JObj (members : list (string * Json)).

(** [undefined] is [None]. *)
Definition truthy (v : option Json) : bool :=
  match v with
  | None | Some JNull => false
  | Some (JBool b) => b
  | Some (JNum m _) => negb (m =? 0)
  | Some (JStr s) => truthy_str s
  | Some (JArr _) | Some (JObj _) => true
  end.

(** Member lookup in an object literal: the last member with the name wins. *)
Fixpoint member (k : string) (ms : list (string * Json)) : option Json :=
  match ms with
  | [] => None
  | (k', v) :: ms' =>
      match member k ms' with
      | Some v' => Some v'
      | None => if decide (k = k') then Some v else None
      end
  end.

(** What a rejected promise carries. *)
Inductive Thrown : Type :=
| Error (message : Json)       (* new Error(message) *)
| TypeError                    (* property access on null / undefined *)
| SyntaxError                  (* JSON text that does not parse *)
| NetworkError.                (* fetch itself rejected *)

Inductive Outcome (A : Type) : Type :=
| Resolved (a : A)
| Rejected (e : Thrown).
Global Arguments Resolved {A} a.
Global Arguments Rejected {A} e.

(** [j.k] for a parsed value [j]: [None] when evaluating it throws. *)
Definition prop (j : Json) (k : string) : option (option Json) :=
  match j with
  | JNull => None
  | JObj ms => Some (member k ms)
  | _ => Some None
  end.

End Js.

Export Js.

(** ** app/services/api.ts *)

Module Api.

(** The calls made on [AsyncStorage]. *)
Inductive StorageCall : Type :=
| GetItem (key : string)
| SetItem (key value : string)
| RemoveItem (key : string).

Record Request : Type := {
  method : string;
  url : string;
  headers : list (string * string);
  body : option Json             (* the value handed to JSON.stringify *)
}.

(** A [Response]: [json] is [None] when the body is not JSON text, so that
    [response.json()] rejects. *)
Record Response : Type := {
  status : Z;
  json : option Json
}.

Definition ok (r : Response) : bool := (200 <=? status r) && (status r <=? 299).

Inductive FetchResult : Type :=
| Got (r : Response)
| Failed.                        (* no response: fetch rejects *)

(** The collaborators of the service: the configured base URL, the backend
    and the behaviour of the key-value storage ([rejects c] tells that the
    storage call [c] rejects its promise). *)
Record Env : Type := {
  API_BASE_URL : string;
  fetch : Request → FetchResult;
  rejects : StorageCall → bool
}.

(** [this.token] of the one [ApiService] instance, and the stored items. *)
Record World : Type := {
  token : option string;
  items : gmap string string
}.

Definition with_token (t : option string) (w : World) : World :=
  {| token := t; items := items w |}.
Definition with_items (m : gmap string string) (w : World) : World :=
  {| token := token w; items := m |}.

(** [AsyncStorage]: [None] is a rejected promise. *)
Definition AsyncStorage_getItem (env : Env) (k : string) (w : World)
  : option (option string) :=
  if rejects env (GetItem k) then None else Some (items w !! k).
Definition AsyncStorage_setItem (env : Env) (k v : string) (w : World)
  : option World :=
  if rejects env (SetItem k v) then None else Some (with_items (<[k := v]> (items w)) w).
Definition AsyncStorage_removeItem (env : Env) (k : string) (w : World)
  : option World :=
  if rejects env (RemoveItem k) then None else Some (with_items (delete k (items w)) w).

(** [loadToken]: a storage error is logged, the token is left as it is. *)
Definition loadToken (env : Env) (w : World) : World :=
  match AsyncStorage_getItem env "access_token" w with
  | Some t => with_token t w
  | None => w
  end.

Definition saveToken (env : Env) (t : string) (w : World) : World :=
  match AsyncStorage_setItem env "access_token" t w with
  | Some w1 => with_token (Some t) w1
  | None => w
  end.

(** [clearToken]: the three steps run in order inside one [try]; the first
    storage call that rejects ends the block (the error is logged). *)
Definition clearToken (env : Env) (w : World) : World :=
  match AsyncStorage_removeItem env "access_token" w with
  | None => w
  | Some w1 =>
      match AsyncStorage_removeItem env "refresh_token" w1 with
      | None => w1
      | Some w2 => with_token None w2
      end
  end.

Definition getHeaders (includeAuth : bool) (w : World) : list (string * string) :=
  ("Content-Type", "application/json") ::
  match token w with
  | Some t => if includeAuth && truthy_str t then [("Authorization", "Bearer " +:+ t)] else []
  | None => []
  end.

Definition handleResponse (env : Env) (r : Response) (w : World)
  : Outcome Json * World :=
  if status r =? 401 then
    (Rejected (Error (JStr "Authentication required")), clearToken env w)
  else if negb (ok r) then
    let error :=
      match json r with
      | Some j => j
      | None => JObj [("error", JStr "Request failed")]
      end in
    match prop error "error" with
    | None => (Rejected TypeError, w)
    | Some e =>
        (Rejected (Error (if truthy e then default JNull e else JStr "Request failed")), w)
    end
  else
    match json r with
    | Some j => (Resolved j, w)
    | None => (Rejected SyntaxError, w)
    end.

(** *** Query strings *)

Inductive ParamValue : Type :=
| PNum (n : Z)
| PStr (s : string).

Definition toString (v : ParamValue) : string :=
  match v with
  | PNum n => Number_toString n
  | PStr s => s
  end.

(** [Object.entries(params)]: the own properties in insertion order; a
    property that is present with the value [undefined] is [(k, None)]. *)
Definition Params : Type := list (string * option ParamValue).

(** The [forEach] loop over the entries, appending to a [URLSearchParams]
    (its list of name-value pairs). *)
Definition appendParam (q : list (string * string)) (e : string * option ParamValue)
  : list (string * string) :=
  match e.2 with
  | Some v => q ++ [(e.1, toString v)]
  | None => q
  end.

Definition buildQuery (params : Params) : list (string * string) :=
  foldl appendParam [] params.

Definition hex_digit (n : N) : ascii :=
  if (n <? 10)%N then ascii_of_N (48 + n) else ascii_of_N (55 + n).

Definition percent (c : ascii) : string :=
  let n := N_of_ascii c in
  String "%" (String (hex_digit (n / 16)) (String (hex_digit (n mod 16)) "")).

Definition is_alnum (c : ascii) : bool :=
  let n := N_of_ascii c in
  ((48 <=? n) && (n <=? 57) || (65 <=? n) && (n <=? 90) || (97 <=? n) && (n <=? 122))%N.

(** application/x-www-form-urlencoded serialisation of one name or value. *)
Definition form_char (c : ascii) : string :=
  if is_alnum c || bool_decide (c ∈ ["*"; "-"; "."; "_"]%char) then String c ""
  else if bool_decide (c = " "%char) then "+"
  else percent c.

Fixpoint form_encode (s : string) : string :=
  match s with
  | EmptyString => ""
  | String c s' => form_char c +:+ form_encode s'
  end.

Definition URLSearchParams_toString (q : list (string * string)) : string :=
  join "&" ((λ kv, form_encode kv.1 +:+ "=" +:+ form_encode kv.2) <$> q).

Definition uri_char (c : ascii) : string :=
  if is_alnum c || bool_decide (c ∈ ["-"; "_"; "."; "!"; "~"; "*"; "'"; "("; ")"]%char)
  then String c ""
  else percent c.

Fixpoint encodeURIComponent (s : string) : string :=
  match s with
  | EmptyString => ""
  | String c s' => uri_char c +:+ encodeURIComponent s'
  end.

(** *** The typed operations *)

Inductive Op : Type :=
| register (name email password : string)
| login (email password : string)
| getCurrentUser
| getArticles (params : Params)
| getArticle (articleId : string)
| getArticlesByTicker (ticker : string) (page perPage : Z)
| getArticlesByTopic (topicName : string) (page perPage : Z)
| searchTickers (query : string) (page perPage : Z)
| getTicker (tickerSymbol : string)
| followTicker (tickerSymbol : string)
| unfollowTicker (tickerSymbol : string)
| getFollowedTickers
| getAllTopics (params : Params)
| getTopic (topicId : string)
| getTopicByName (topicName : string)
| followTopic (topicId : string)
| unfollowTopic (topicId : string)
| getFollowedTopics
| isFollowingTopic (topicId : string)
| getTopicArticles (topicId : string) (page perPage : Z).

Definition paging (page perPage : Z) : string :=
  "?page=" +:+ Number_toString page +:+ "&per_page=" +:+ Number_toString perPage.

(** The URL each operation hands to [fetch]. *)
Definition url_of (env : Env) (op : Op) : string :=
  API_BASE_URL env +:+
  match op with
  | register _ _ _ => "/auth/register"
  | login _ _ => "/auth/login"
  | getCurrentUser => "/auth/me"
  | getArticles params => "/articles?" +:+ URLSearchParams_toString (buildQuery params)
  | getArticle articleId => "/articles/" +:+ articleId
  | getArticlesByTicker ticker page perPage =>
      "/articles/ticker/" +:+ ticker +:+ paging page perPage
  | getArticlesByTopic topicName page perPage =>
      "/articles/topic/" +:+ topicName +:+ paging page perPage
  | searchTickers query page perPage =>
      "/tickers?q=" +:+ encodeURIComponent query
        +:+ "&page=" +:+ Number_toString page +:+ "&per_page=" +:+ Number_toString perPage
  | getTicker tickerSymbol => "/tickers/" +:+ toUpperCase tickerSymbol
  | followTicker tickerSymbol => "/tickers/" +:+ toUpperCase tickerSymbol +:+ "/follow"
  | unfollowTicker tickerSymbol => "/tickers/" +:+ toUpperCase tickerSymbol +:+ "/unfollow"
  | getFollowedTickers => "/tickers/following"
  | getAllTopics params => "/topics?" +:+ URLSearchParams_toString (buildQuery params)
  | getTopic topicId => "/topics/" +:+ topicId
  | getTopicByName topicName => "/topics/name/" +:+ encodeURIComponent topicName
  | followTopic topicId => "/topics/" +:+ topicId +:+ "/follow"
  | unfollowTopic topicId => "/topics/" +:+ topicId +:+ "/unfollow"
  | getFollowedTopics => "/topics/following"
  | isFollowingTopic topicId => "/topics/" +:+ topicId +:+ "/is-following"
  | getTopicArticles topicId page perPage =>
      "/topics/" +:+ topicId +:+ "/articles" +:+ paging page perPage
  end.

Definition method_of (op : Op) : string :=
  match op with
  | register _ _ _ | login _ _ | followTicker _ | followTopic _ => "POST"
  | unfollowTicker _ | unfollowTopic _ => "DELETE"
  | _ => "GET"
  end.

Definition includeAuth_of (op : Op) : bool :=
  match op with
  | register _ _ _ | login _ _ => false
  | _ => true
  end.

Definition body_of (op : Op) : option Json :=
  match op with
  | register name email password =>
      Some (JObj [("name", JStr name); ("email", JStr email); ("password", JStr password)])
  | login email password =>
      Some (JObj [("email", JStr email); ("password", JStr password)])
  | _ => None
  end.

Definition request_of (env : Env) (op : Op) (w : World) : Request :=
  {| method := method_of op;
     url := url_of env op;
     headers := getHeaders (includeAuth_of op) w;
     body := body_of op |}.

(** After a successful [register] or [login]: store the tokens when the body
    has an [access_token].  [saveToken] swallows a storage error; the
    [setItem] of the refresh token is outside any [try]. *)
Definition storeSession (env : Env) (data : Json) (w : World) : Outcome Json * World :=
  match prop data "access_token" with
  | None => (Rejected TypeError, w)
  | Some a =>
      if truthy a then
        let w1 :=
          match a with
          | Some (JStr t) => saveToken env t w
          | _ => w               (* not a string: the storage refuses it *)
          end in
        match prop data "refresh_token" with
        | Some (Some (JStr rt)) =>
            match AsyncStorage_setItem env "refresh_token" rt w1 with
            | Some w2 => (Resolved data, w2)
            | None => (Rejected (Error (JStr "AsyncStorage")), w1)
            end
        | _ => (Rejected (Error (JStr "AsyncStorage")), w1)
        end
      else (Resolved data, w)
  end.

(** One gateway operation, from [fetch] to the value its promise settles
    with. *)
Definition call (env : Env) (op : Op) (w : World) : Outcome Json * World :=
  match fetch env (request_of env op w) with
  | Failed => (Rejected NetworkError, w)
  | Got r =>
      match handleResponse env r w with
      | (Resolved data, w1) =>
          match op with
          | register _ _ _ | login _ _ => storeSession env data w1
          | _ => (Resolved data, w1)
          end
      | (Rejected e, w1) => (Rejected e, w1)
      end
  end.

(** [logout] makes no request. *)
Definition logout (env : Env) (w : World) : World := clearToken env w.

End Api.

(** ** Data shared by the screens *)

Module Data.

Record TickerRef : Type := { symbol : string; name : string }.
Record TopicRef : Type := { topic_id : string; topic_name : string }.

(** [interface Article]; identity is the [id] field. *)
Record Article : Type := {
  id : string;
  title : string;
  summary : string;
  bullets : list string;
  url : string;
  provider : string;
  provider_url : string;
  timestamp : Z;
  image_url : option string;
  tickers : list TickerRef;
  topics : list TopicRef
}.

Record Pagination : Type := { has_next : bool }.

(** The body of a paginated article listing, as the screens read it. *)
Record ArticlesResponse : Type := {
  articles : list Article;
  pagination : Pagination
}.

Definition ids (l : list Article) : list string := id <$> l.

End Data.

Abbreviation Article := Data.Article.
Abbreviation ArticlesResponse := Data.ArticlesResponse.

(** The two arguments every article listing is called with. *)
Definition pageParams (pageNum : Z) : Api.Params :=
  [("page", Some (Api.PNum pageNum)); ("per_page", Some (Api.PNum 20))].

(** ** app/(tabs)/index.tsx, topic-tabbed home screen *)

Module TopicFeed.

Record Topic : Type := { id : string; name : string }.

Definition FOR_YOU_TAB : Topic := {| id := "for-you"; name := "Watchlist" |}.

Record State : Type := {
  topics : list Topic;
  selectedTopicIndex : nat;
  articlesByTopic : gmap string (list Article);
  loadingArticles : bool;
  page : gmap string Z;
  hasMore : gmap string bool
}.

Definition initial : State :=
  {| topics := []; selectedTopicIndex := 0; articlesByTopic := ∅;
     loadingArticles := false; page := ∅; hasMore := ∅ |}.

Definition setLoadingArticles (b : bool) (st : State) : State :=
  {| topics := topics st; selectedTopicIndex := selectedTopicIndex st;
     articlesByTopic := articlesByTopic st; loadingArticles := b;
     page := page st; hasMore := hasMore st |}.

(** A call of [loadArticlesForTopic] that is waiting for its response.
    [seen] is the [articlesByTopic] of the render that made the call: the
    continuation reads the accumulated list from it. *)
Record Pending : Type := {
  topicId : string;
  pageNum : Z;
  request : Api.Op;
  seen : gmap string (list Article)
}.

Definition loadArticlesForTopic_begin (topicId : string) (pageNum : Z) (st : State)
  : State * Pending :=
  (setLoadingArticles true st,
   {| topicId := topicId; pageNum := pageNum;
      request := if decide (topicId = "for-you")
                 then Api.getArticles (pageParams pageNum)
                 else Api.getTopicArticles topicId pageNum 20;
      seen := articlesByTopic st |}).

(** The articles of the incoming page whose id is not among [existing]. *)
Definition newUniqueArticles (existing incoming : list Article) : list Article :=
  filter (λ a, Data.id a ∉ Data.ids existing) incoming.

Definition newArticles (p : Pending) (response : ArticlesResponse) : list Article :=
  let existingArticles := default [] (seen p !! topicId p) in
  if pageNum p =? 1 then Data.articles response
  else existingArticles ++ newUniqueArticles existingArticles (Data.articles response).

Definition loadArticlesForTopic_end (p : Pending) (o : Outcome ArticlesResponse)
  (st : State) : State :=
  match o with
  | Resolved response =>
      {| topics := topics st; selectedTopicIndex := selectedTopicIndex st;
         articlesByTopic := <[topicId p := newArticles p response]> (articlesByTopic st);
         loadingArticles := false;
         page := <[topicId p := pageNum p]> (page st);
         hasMore := <[topicId p := Data.has_next (Data.pagination response)]> (hasMore st) |}
  | Rejected _ => setLoadingArticles false st
  end.

(** [page.get(id) || 1] and [hasMore.get(id) ?? true]. *)
Definition currentPage (st : State) (key : string) : Z :=
  match page st !! key with
  | Some n => if n =? 0 then 1 else n
  | None => 1
  end.

Definition hasMorePages (st : State) (key : string) : bool :=
  default true (hasMore st !! key).

(** [handleLoadMore]: the new state and the load it started, if any.  The
    selected index always points into [topics]; outside it the handler
    throws before doing anything. *)
Definition handleLoadMore (st : State) : State * option Pending :=
  if bool_decide (topics st ≠ []) && negb (loadingArticles st) then
    match topics st !! selectedTopicIndex st with
    | Some selectedTopic =>
        if hasMorePages st (id selectedTopic) then
          let '(st', p) :=
            loadArticlesForTopic_begin (id selectedTopic)
              (currentPage st (id selectedTopic) + 1) st in
          (st', Some p)
        else (st, None)
    | None => (st, None)
    end
  else (st, None).

(** The effect that loads a topic the first time it is selected. *)
Definition onTopicSelected (st : State) : State * option Pending :=
  match topics st !! selectedTopicIndex st with
  | Some selectedTopic =>
      if bool_decide (is_Some (articlesByTopic st !! id selectedTopic)) then (st, None)
      else let '(st', p) := loadArticlesForTopic_begin (id selectedTopic) 1 st in
           (st', Some p)
  | None => (st, None)
  end.

(** [loadFirst]: a page-1 load that runs to its response. *)
Definition loadFirst (key : string) (o : Outcome ArticlesResponse) (st : State) : State :=
  let '(st', p) := loadArticlesForTopic_begin key 1 st in
  loadArticlesForTopic_end p o st'.

(** [loadNext]: one [handleLoadMore] that runs to its response before the
    next event. *)
Definition loadNext (o : Outcome ArticlesResponse) (st : State) : State :=
  match handleLoadMore st with
  | (st', Some p) => loadArticlesForTopic_end p o st'
  | (st', None) => st'
  end.

Definition loadNexts (os : list (Outcome ArticlesResponse)) (st : State) : State :=
  foldl (λ s o, loadNext o s) st os.

(** The accumulated list of a feed key. *)
Definition feed (st : State) (key : string) : list Article :=
  default [] (articlesByTopic st !! key).

End TopicFeed.

(** ** app/(tabs)/index.tsx, searchable home screen *)

Module HomeFeed.

Record State : Type := {
  articles : list Article;
  loading : bool;
  refreshing : bool;
  page : Z;
  hasMore : bool;
  searchQuery : string;
  searchTimer : option Z
}.

Definition initial : State :=
  {| articles := []; loading := true; refreshing := false; page := 1;
     hasMore := true; searchQuery := ""; searchTimer := None |}.

(** [search || undefined] *)
Definition searchParam (search : string) : option Api.ParamValue :=
  if truthy_str search then Some (Api.PStr search) else None.

Definition loadArticles_request (pageNum : Z) (search : string) : Api.Op :=
  Api.getArticles (pageParams pageNum ++ [("search", searchParam search)]).

(** The continuation of [loadArticles]: the setters use the state current
    when the response arrives; a failure raises an alert and changes
    nothing but the flags. *)
Definition loadArticles_end (pageNum : Z) (o : Outcome ArticlesResponse) (st : State)
  : State :=
  match o with
  | Resolved response =>
      {| articles := if pageNum =? 1 then Data.articles response
                     else articles st ++ Data.articles response;
         loading := false; refreshing := false;
         page := pageNum;
         hasMore := Data.has_next (Data.pagination response);
         searchQuery := searchQuery st; searchTimer := searchTimer st |}
  | Rejected _ =>
      {| articles := articles st; loading := false; refreshing := false;
         page := page st; hasMore := hasMore st;
         searchQuery := searchQuery st; searchTimer := searchTimer st |}
  end.

(** [handleRefresh]: the flag and page it sets, and the load it starts. *)
Definition handleRefresh (st : State) : State * (Z * string) :=
  ({| articles := articles st; loading := loading st; refreshing := true; page := 1;
      hasMore := hasMore st; searchQuery := searchQuery st;
      searchTimer := searchTimer st |},
   (1, searchQuery st)).

(** [handleLoadMore]: the page it asks for, if any. *)
Definition handleLoadMore (st : State) : option (Z * string) :=
  if negb (loading st) && hasMore st then Some (page st + 1, searchQuery st) else None.

(** A pending [setTimeout]: the callback of [handleSearch] closes over the
    text of its keystroke. *)
Record Timer : Type := { timer_id : Z; due : Z; text : string }.

(** A request that was issued: when, for which page and search text. *)
Record Flight : Type := {
  flight_id : nat;
  issued_at : Z;
  pageNum : Z;
  search : string;
  request : Api.Op
}.

(** The screen with its timers and the requests made since it was set up.
    Timer ids count up from 1. *)
Record World : Type := {
  now : Z;
  next_timer : Z;
  timers : list Timer;
  screen : State;
  issued : list Flight;          (* every request so far, oldest first *)
  pending : list Flight          (* those whose response has not arrived *)
}.

Definition mounted (st : State) : World :=
  {| now := 0; next_timer := 1; timers := []; screen := st; issued := []; pending := [] |}.

Definition clearTimeout (i : Z) (ts : list Timer) : list Timer :=
  filter (λ t, timer_id t ≠ i) ts.

(** [handleSearch(text)] *)
Definition handleSearch (txt : string) (w : World) : World :=
  let st := screen w in
  let ts := match searchTimer st with
            | Some i => if i =? 0 then timers w else clearTimeout i (timers w)
            | None => timers w
            end in
  let newTimer := next_timer w in
  {| now := now w;
     next_timer := newTimer + 1;
     timers := ts ++ [{| timer_id := newTimer; due := now w + 500; text := txt |}];
     screen := {| articles := articles st; loading := loading st;
                  refreshing := refreshing st; page := page st; hasMore := hasMore st;
                  searchQuery := txt; searchTimer := Some newTimer |};
     issued := issued w;
     pending := pending w |}.

(** Starting [loadArticles(pageNum, search)] at the current time. *)
Definition loadArticles_begin (pn : Z) (s : string) (w : World) : World :=
  let f := {| flight_id := length (issued w); issued_at := now w; pageNum := pn;
              search := s; request := loadArticles_request pn s |} in
  {| now := now w; next_timer := next_timer w; timers := timers w; screen := screen w;
     issued := issued w ++ [f]; pending := pending w ++ [f] |}.

(** The timer callback: [setPage(1); setLoading(true); loadArticles(1, text)],
    run at the time the timer is due. *)
Definition fire (t : Timer) (w : World) : World :=
  let st := screen w in
  loadArticles_begin 1 (text t)
    {| now := due t; next_timer := next_timer w; timers := timers w;
       screen := {| articles := articles st; loading := true;
                    refreshing := refreshing st; page := 1; hasMore := hasMore st;
                    searchQuery := searchQuery st; searchTimer := searchTimer st |};
       issued := issued w; pending := pending w |}.

(** Time passes until [t]: the timers due by then fire, earliest first (the
    list is in order of their due times, every delay being the same). *)
Definition advance (t : Z) (w : World) : World :=
  let dueNow := filter (λ x, due x ≤ t) (timers w) in
  let later := filter (λ x, ¬ due x ≤ t) (timers w) in
  let w1 := foldl (λ s x, fire x s)
              {| now := now w; next_timer := next_timer w; timers := later;
                 screen := screen w; issued := issued w; pending := pending w |}
              dueNow in
  {| now := Z.max t (now w1); next_timer := next_timer w1; timers := timers w1;
     screen := screen w1; issued := issued w1; pending := pending w1 |}.

(** A keystroke at time [t]. *)
Definition keystroke (t : Z) (txt : string) (w : World) : World :=
  handleSearch txt (advance t w).

Definition type (keys : list (Z * string)) (w : World) : World :=
  foldl (λ s k, keystroke k.1 k.2 s) w keys.

(** The request [i], if its response is still awaited. *)
Definition awaited (i : nat) (w : World) : option Flight :=
  head (filter (λ f, flight_id f = i) (pending w)).

(** The response to request [i] arrives: the continuation of that call of
    [loadArticles] runs on the state of the screen as it is then. *)
Definition deliver (i : nat) (o : Outcome ArticlesResponse) (w : World) : World :=
  match awaited i w with
  | Some f =>
      {| now := now w; next_timer := next_timer w; timers := timers w;
         screen := loadArticles_end (pageNum f) o (screen w);
         issued := issued w;
         pending := filter (λ f, flight_id f ≠ i) (pending w) |}
  | None => w
  end.

(** [loadFirst] / [loadNext] run to their response. *)
Definition loadFirst (o : Outcome ArticlesResponse) (st : State) : State :=
  loadArticles_end 1 o st.

Definition loadNext (o : Outcome ArticlesResponse) (st : State) : State :=
  match handleLoadMore st with
  | Some (pn, _) => loadArticles_end pn o st
  | None => st
  end.

End HomeFeed.

(** ** app/stock/[symbol].tsx *)

Module StockFeed.

Record State : Type := {
  symbol : option string;        (* the route parameter *)
  articles : list Article;
  loading : bool;
  loadingMore : bool;
  page : Z;
  hasMore : bool
}.

Definition initial (symbol : option string) : State :=
  {| symbol := symbol; articles := []; loading := true; loadingMore := false;
     page := 1; hasMore := true |}.

Record Pending : Type := {
  pageNum : Z;
  request : Api.Op;
  seen : list Article            (* [articles] of the calling render *)
}.

(** [loadArticles(pageNum)] up to its [await]; nothing happens without a
    symbol. *)
Definition loadArticles_begin (pn : Z) (st : State) : State * option Pending :=
  match symbol st with
  | Some s =>
      if truthy_str s then
        ({| symbol := symbol st; articles := articles st;
            loading := if pn =? 1 then true else loading st;
            loadingMore := if pn =? 1 then loadingMore st else true;
            page := page st; hasMore := hasMore st |},
         Some {| pageNum := pn; request := Api.getArticlesByTicker s pn 20;
                 seen := articles st |})
      else (st, None)
  | None => (st, None)
  end.

(** The price chart derived from the list is presentation and left out. *)
Definition loadArticles_end (p : Pending) (o : Outcome ArticlesResponse) (st : State)
  : State :=
  match o with
  | Resolved response =>
      {| symbol := symbol st;
         articles := if pageNum p =? 1 then Data.articles response
                     else seen p ++ Data.articles response;
         loading := false; loadingMore := false;
         page := pageNum p;
         hasMore := bool_decide (length (Data.articles response) = 20%nat) |}
  | Rejected _ =>
      {| symbol := symbol st; articles := articles st;
         loading := false; loadingMore := false;
         page := page st; hasMore := hasMore st |}
  end.

Definition handleLoadMore (st : State) : State * option Pending :=
  if negb (loadingMore st) && hasMore st then loadArticles_begin (page st + 1) st
  else (st, None).

Definition loadFirst (o : Outcome ArticlesResponse) (st : State) : State :=
  match loadArticles_begin 1 st with
  | (st', Some p) => loadArticles_end p o st'
  | (st', None) => st'
  end.

End StockFeed.

(** ** app/(tabs)/swipe.tsx, card deck *)

Module SwipeDeck.

Record State : Type := {
  articles : list Article;
  loading : bool;
  currentIndex : Z;
  fetchingMore : bool;
  page : Z
}.

Definition initial : State :=
  {| articles := []; loading := true; currentIndex := 0; fetchingMore := false;
     page := 1 |}.

(** [loadArticles(pageNum)] up to its [await]: the flag it raises and the
    request. *)
Definition loadArticles_begin (pn : Z) (st : State) : State * Api.Op :=
  ({| articles := articles st;
      loading := if pn =? 1 then true else loading st;
      currentIndex := currentIndex st;
      fetchingMore := if pn =? 1 then fetchingMore st else true;
      page := page st |},
   Api.getArticles (pageParams pn)).

Definition loadArticles_end (pn : Z) (o : Outcome ArticlesResponse) (st : State)
  : State :=
  match o with
  | Resolved response =>
      {| articles := if pn =? 1 then Data.articles response
                     else articles st ++ Data.articles response;
         loading := false; currentIndex := currentIndex st; fetchingMore := false;
         page := pn |}
  | Rejected _ =>
      {| articles := articles st; loading := false; currentIndex := currentIndex st;
         fetchingMore := false; page := page st |}
  end.

Definition handleSwipedAll (st : State) : State * option Api.Op :=
  let '(st', op) := loadArticles_begin (page st + 1) st in (st', Some op).


End SwipeDeck.

(** ** [JSON.parse] *)

Module JsonText.

Definition is_ws (c : ascii) : bool :=
  bool_decide (c ∈ [" "; "009"; "010"; "013"]%char).

Fixpoint skip_ws (s : string) : string :=
  match s with
  | String c s' => if is_ws c then skip_ws s' else s
  | EmptyString => EmptyString
  end.

Definition digit (c : ascii) : option Z :=
  let n := Z.of_N (N_of_ascii c) in
  if (48 <=? n) && (n <=? 57) then Some (n - 48) else None.

Definition hex (c : ascii) : option Z :=
  let n := Z.of_N (N_of_ascii c) in
  if (48 <=? n) && (n <=? 57) then Some (n - 48)
  else if (65 <=? n) && (n <=? 70) then Some (n - 55)
  else if (97 <=? n) && (n <=? 102) then Some (n - 87)
  else None.

Definition chr (n : Z) : ascii := ascii_of_N (Z.to_N n).

(** A UTF-16 code unit written as [\uXXXX], stored as its UTF-8 bytes. *)
Definition utf8 (u : Z) : string :=
  if u <? 128 then String (chr u) ""
  else if u <? 2048 then
    String (chr (192 + u / 64)) (String (chr (128 + u mod 64)) "")
  else
    String (chr (224 + u / 4096))
      (String (chr (128 + (u / 64) mod 64)) (String (chr (128 + u mod 64)) "")).

(** The character a one-letter escape stands for. *)
Definition escape (e : ascii) : option ascii :=
  if bool_decide (e = "034"%char) then Some "034"%char
  else if bool_decide (e = "\"%char) then Some "\"%char
  else if bool_decide (e = "/"%char) then Some "/"%char
  else if bool_decide (e = "b"%char) then Some "008"%char
  else if bool_decide (e = "f"%char) then Some "012"%char
  else if bool_decide (e = "n"%char) then Some "010"%char
  else if bool_decide (e = "r"%char) then Some "013"%char
  else if bool_decide (e = "t"%char) then Some "009"%char
  else None.

(** The characters of a string literal after its opening quote; [acc] holds
    the characters read so far, last first. *)
Fixpoint parse_chars (s : string) (acc : string) : option (string * string) :=
  match s with
  | EmptyString => None
  | String c r =>
      if bool_decide (c = "034"%char) then Some (String.rev acc, r)
      else if bool_decide (c = "\"%char) then
        match r with
        | String e r1 =>
            if bool_decide (e = "u"%char) then
              match r1 with
              | String h1 (String h2 (String h3 (String h4 r2))) =>
                  match hex h1, hex h2, hex h3, hex h4 with
                  | Some a, Some b, Some c', Some d =>
                      parse_chars r2
                        (String.rev (utf8 (((a * 16 + b) * 16 + c') * 16 + d)) +:+ acc)
                  | _, _, _, _ => None
                  end
              | _ => None
              end
            else
              match escape e with
              | Some x => parse_chars r1 (String x acc)
              | None => None
              end
        | EmptyString => None
        end
      else if (N_of_ascii c <? 32)%N then None
      else parse_chars r (String c acc)
  end.

(** One or more digits: their value, how many there are, and the rest. *)
Fixpoint parse_digits (s : string) (v : Z) (n : Z) : Z * Z * string :=
  match s with
  | String c r =>
      match digit c with
      | Some d => parse_digits r (v * 10 + d) (n + 1)
      | None => (v, n, s)
      end
  | EmptyString => (v, n, s)
  end.

(** [int frac? exp?], the sign already read. *)
Definition parse_unsigned (s : string) : option (Z * Z * string) :=
  let '(i, ni, r) := parse_digits s 0 0 in
  let leading_zero := match s with String "0" _ => true | _ => false end in
  if (ni =? 0) || (leading_zero && (1 <? ni)) then None
  else
    let frac :=
      match r with
      | String "." r1 =>
          let '(m, nf, r2) := parse_digits r1 i 0 in
          if nf =? 0 then None else Some (m, nf, r2)
      | _ => Some (i, 0, r)
      end in
    match frac with
    | None => None
    | Some (m, nf, r2) =>
        let exponent sign r3 :=
          let '(x, nx, r4) := parse_digits r3 0 0 in
          if nx =? 0 then None else Some (m, sign * x - nf, r4) in
        match r2 with
        | String c r3 =>
            if bool_decide (c = "e"%char) || bool_decide (c = "E"%char) then
              match r3 with
              | String "+" r4 => exponent 1 r4
              | String "-" r4 => exponent (-1) r4
              | _ => exponent 1 r3
              end
            else Some (m, - nf, r2)
        | EmptyString => Some (m, - nf, r2)
        end
    end.

Definition parse_number (s : string) : option (Json * string) :=
  match s with
  | String "-" r =>
      match parse_unsigned r with
      | Some (m, e, r') => Some (JNum (- m) e, r')
      | None => None
      end
  | _ =>
      match parse_unsigned s with
      | Some (m, e, r') => Some (JNum m e, r')
      | None => None
      end
  end.

(** [s] starts with the literal [lit]: what follows it. *)
Fixpoint expect (lit s : string) : option string :=
  match lit, s with
  | EmptyString, _ => Some s
  | String a lit', String b s' => if bool_decide (a = b) then expect lit' s' else None
  | String _ _, EmptyString => None
  end.

Section Compound.
Variable value : string → option (Json * string).

(** The elements of an array after its first one is known not to be absent. *)
Fixpoint parse_elements (fuel : nat) (s : string) (acc : list Json)
  : option (Json * string) :=
  match fuel with
  | O => None
  | S fuel' =>
      match value s with
      | None => None
      | Some (v, r) =>
          match skip_ws r with
          | String "," r' => parse_elements fuel' r' (v :: acc)
          | String "]" r' => Some (JArr (reverse (v :: acc)), r')
          | _ => None
          end
      end
  end.

Fixpoint parse_members (fuel : nat) (s : string) (acc : list (string * Json))
  : option (Json * string) :=
  match fuel with
  | O => None
  | S fuel' =>
      match skip_ws s with
      | String "034" r =>
          match parse_chars r "" with
          | None => None
          | Some (k, r1) =>
              match skip_ws r1 with
              | String ":" r2 =>
                  match value r2 with
                  | None => None
                  | Some (v, r3) =>
                      match skip_ws r3 with
                      | String "," r' => parse_members fuel' r' ((k, v) :: acc)
                      | String "}" r' => Some (JObj (reverse ((k, v) :: acc)), r')
                      | _ => None
                      end
                  end
              | _ => None
              end
          end
      | _ => None
      end
  end.
End Compound.

Fixpoint parse_value (fuel : nat) (s : string) : option (Json * string) :=
  match fuel with
  | O => None
  | S fuel' =>
      match skip_ws s with
      | EmptyString => None
      | String c r as s' =>
          if bool_decide (c = "{"%char) then
            match skip_ws r with
            | String "}" r' => Some (JObj [], r')
            | _ => parse_members (parse_value fuel') fuel' r []
            end
          else if bool_decide (c = "["%char) then
            match skip_ws r with
            | String "]" r' => Some (JArr [], r')
            | _ => parse_elements (parse_value fuel') fuel' r []
            end
          else if bool_decide (c = "034"%char) then
            match parse_chars r "" with
            | Some (v, r') => Some (JStr v, r')
            | None => None
            end
          else if bool_decide (c = "t"%char) then
            r' ← expect "true" s'; Some (JBool true, r')
          else if bool_decide (c = "f"%char) then
            r' ← expect "false" s'; Some (JBool false, r')
          else if bool_decide (c = "n"%char) then
            r' ← expect "null" s'; Some (JNull, r')
          else parse_number s'
      end
  end.

(** [JSON.parse(text)]: [None] when it throws a SyntaxError.  Every step
    of the parser consumes a character, so the length of the text bounds
    the recursion. *)
Definition JSON_parse (text : string) : option Json :=
  match parse_value (S (String.length text)) text with
  | Some (v, r) => if bool_decide (skip_ws r = "") then Some v else None
  | None => None
  end.

End JsonText.

(** ** app/services/groq.ts: the types the chat screen imports *)

Module Groq.

Inductive Role : Type := system | user | assistant.

Global Instance Role_eq_dec : EqDecision Role.
Proof. solve_decision. Defined.

(** [interface Message] *)
Record Message : Type := { role : Role; content : string }.

(** The arguments of [sendMessage(messages, articleContext)]. *)
Record Call : Type := {
  messages : list Message;
  articleContext : option Json
}.

End Groq.

(** ** app/chat.tsx *)

Module Chat.

(** [interface ChatMessage extends Message] *)
Record ChatMessage : Type := {
  id : string;
  role : Groq.Role;
  content : string;
  timestamp : Z
}.

(** The route parameters the screen reads. *)
Record Params : Type := {
  context : option string;
  question : option string
}.

(** What a render of the screen sees: the parsed context and the state
    variables. *)
Record State : Type := {
  articleContext : option Json;
  messages : list ChatMessage;
  inputText : string;
  isLoading : bool;
  initialQuestion : string
}.

(** The guarded parse at the top of [ChatScreen]: an absent or empty
    parameter gives [undefined] without parsing, a parameter that does not
    parse is caught and gives [undefined] too. *)
Definition parseContext (p : Params) : option Json :=
  match context p with
  | Some text =>
      if truthy_str text then
        match JsonText.JSON_parse text with
        | Some v => Some v       (* try *)
        | None => None           (* catch *)
        end
      else None
  | None => None
  end.

(** The first render: the parsed context and the initial [useState] values. *)
Definition render (p : Params) : State :=
  {| articleContext := parseContext p;
     messages := [];
     inputText := "";
     isLoading := false;
     initialQuestion := or_str (default "" (question p)) "" |}.

(** [articleContext.tickers.map(t => t.name)] for a context shaped as
    [interface ArticleContext] declares it; [None] for any other value. *)
Definition tickerNames (ctx : Json) : option (list string) :=
  match prop ctx "tickers" with
  | Some (Some (JArr ts)) =>
      mapM (λ t, match prop t "name" with
                 | Some (Some (JStr n)) => Some n
                 | _ => None
                 end) ts
  | _ => None
  end.

Definition welcomeContent (ctx : option Json) : option string :=
  if truthy ctx then
    names ← tickerNames (default JNull ctx);
    Some ("Hi! I'm here to help you understand this article about "
            +:+ join ", " names +:+ ". What would you like to know?")
  else Some "Hi! I'm Sensybull. How can I help you today?".

(** The mount effect at clock reading [now]: the welcome message replaces
    the transcript, and an initial question is scheduled for sending 500 ms
    later (through the handler of this first render).  The result carries
    the question to send, if any. *)
Definition mount (now : Z) (st : State) : State * option string :=
  match welcomeContent (articleContext st) with
  | Some text =>
      ({| articleContext := articleContext st;
          messages := [{| id := Number_toString now; role := Groq.assistant;
                          content := text; timestamp := now |}];
          inputText := inputText st; isLoading := isLoading st;
          initialQuestion := initialQuestion st |},
       if truthy_str (initialQuestion st) then Some (initialQuestion st) else None)
  | None => (st, None)           (* the effect throws before any setter *)
  end.

Definition ChatScreen (now : Z) (p : Params) : State * option string :=
  mount now (render p).

(** [text] is [messageText || inputText]. *)
Definition effectiveText (messageText : option string) (seen : State) : string :=
  or_str (default "" messageText) (inputText seen).

(** [handleSendMessage(messageText?)] up to its [await], at clock reading
    [now].  [seen] is the render the handler belongs to: it reads
    [inputText], [isLoading] and [messages] from there.  The send button and
    the submit key call the handler of the current render, for which [seen]
    is the current state [st].  The result is the state after the
    synchronous part and the call made on the completion provider, if any. *)
Definition handleSendMessage_begin (now : Z) (messageText : option string)
  (seen st : State) : State * option Groq.Call :=
  let text := effectiveText messageText seen in
  if negb (truthy_str (trim text)) || isLoading seen then (st, None)
  else
    let userMessage :=
      {| id := Number_toString now; role := Groq.user; content := trim text;
         timestamp := now |} in
    let conversationHistory :=
      ((λ m, {| Groq.role := role m; Groq.content := content m |})
         <$> filter (λ m, role m ≠ Groq.system) (messages seen))
        ++ [{| Groq.role := Groq.user; Groq.content := trim text |}] in
    ({| articleContext := articleContext st;
        messages := messages st ++ [userMessage];
        inputText := "";
        isLoading := true;
        initialQuestion := initialQuestion st |},
     Some {| Groq.messages := conversationHistory;
             Groq.articleContext := articleContext seen |}).

(** The continuation, at clock reading [now]: the reply, or the apology
    when the provider failed, is appended. *)
Definition handleSendMessage_end (now : Z) (o : Outcome string) (st : State) : State :=
  let reply :=
    match o with
    | Resolved response => response
    | Rejected _ =>
        "I'm sorry, I encountered an error processing your question. Please try again."
    end in
  {| articleContext := articleContext st;
     messages := messages st ++
       [{| id := Number_toString (now + 1); role := Groq.assistant; content := reply;
           timestamp := now |}];
     inputText := inputText st;
     isLoading := false;
     initialQuestion := initialQuestion st |}.

End Chat.

(** ** Vocabulary of the properties and sample data *)

(** A JSON string literal for a text without quotes or escapes. *)
Definition quoted (s : string) : string :=
  String "034" s +:+ String "034" "".

(** The context the swipe screen passes for an article about Apple. *)
Definition appleContext : string :=
  "{" +:+ quoted "title" +:+ ": " +:+ quoted "Apple beats estimates" +:+ ", "
      +:+ quoted "tickers" +:+ ": [{" +:+ quoted "symbol" +:+ ": " +:+ quoted "AAPL"
      +:+ ", " +:+ quoted "name" +:+ ": " +:+ quoted "Apple" +:+ "}]}".

(** Settles the [decide]s a [filter] over a short list leaves behind. *)
Ltac decide_bounds := repeat case_decide; simpl in *; try lia.

(** The pair an entry of [params] contributes to the query, if any. *)
Definition definedParam (e : string * option Api.ParamValue) : option (string * string) :=
  (λ v, (e.1, Api.toString v)) <$> e.2.

(** A backend that answers every request with 401, and a storage that
    works. *)
Definition sampleEnv : Api.Env :=
  {| Api.API_BASE_URL := "https://api.sensybull.com";
     Api.fetch := λ _, Api.Got {| Api.status := 401; Api.json := None |};
     Api.rejects := λ _, false |}.

(** [{page: 1, per_page: 20, search: undefined}] *)
Definition sampleParams : Api.Params :=
  [("page", Some (Api.PNum 1)); ("per_page", Some (Api.PNum 20)); ("search", None)].

(** The storage carries out the two removals of [clearToken]. *)
Definition storageWorks (env : Api.Env) : Prop :=
  Api.rejects env (Api.RemoveItem "access_token") = false ∧
  Api.rejects env (Api.RemoveItem "refresh_token") = false.

(** No token in memory, neither token stored. *)
Definition tokensCleared (w : Api.World) : Prop :=
  Api.token w = None ∧
  Api.items w !! "access_token" = None ∧
  Api.items w !! "refresh_token" = None.

(** A session after login. *)
Definition signedIn : Api.World :=
  {| Api.token := Some "abc";
     Api.items := {[ "access_token" := "abc"; "refresh_token" := "def" ]} |}.

(** The chat screen just mounted, without context or question. *)
Definition greeted : Chat.State :=
  (Chat.ChatScreen 1700000000000 {| Chat.context := None; Chat.question := None |}).1.

(** An article that is nothing but its id. *)
Definition stub (i : string) : Article :=
  {| Data.id := i; Data.title := ""; Data.summary := ""; Data.bullets := [];
     Data.url := ""; Data.provider := ""; Data.provider_url := "";
     Data.timestamp := 0; Data.image_url := None; Data.tickers := [];
     Data.topics := [] |}.

(** A response with the articles [l] and [has_next = more]. *)
Definition pageOf (l : list Article) (more : bool) : ArticlesResponse :=
  {| Data.articles := l; Data.pagination := {| Data.has_next := more |} |}.

(** The key of the selected tab. *)
Definition selectedKey (st : TopicFeed.State) : option string :=
  TopicFeed.id <$> TopicFeed.topics st !! TopicFeed.selectedTopicIndex st.

(** A response whose articles have pairwise different ids (a failure
    carries no articles). *)
Definition distinctIds (o : Outcome ArticlesResponse) : Prop :=
  match o with
  | Resolved r => NoDup (Data.ids (Data.articles r))
  | Rejected _ => True
  end.

(** The incoming articles whose id is already in the list. *)
Definition known (existing incoming : list Article) : list Article :=
  filter (λ a, Data.id a ∈ Data.ids existing) incoming.

(** The articles a[from] .. a[from + n - 1]. *)
Definition stubs (from n : nat) : list Article :=
  (λ i, stub ("a" +:+ pretty i)) <$> seq from n.

(** The topic feed showing its one tab after a first page of 20. *)
Definition firstPageShown : TopicFeed.State :=
  TopicFeed.loadFirst "for-you" (Resolved (pageOf (stubs 0 20) true))
    {| TopicFeed.topics := [TopicFeed.FOR_YOU_TAB]; TopicFeed.selectedTopicIndex := 0;
       TopicFeed.articlesByTopic := ∅; TopicFeed.loadingArticles := false;
       TopicFeed.page := ∅; TopicFeed.hasMore := ∅ |}.

(** The topic feed after a first page that is announced to be the last. *)
Definition lastPageShown : TopicFeed.State :=
  TopicFeed.loadFirst "for-you" (Resolved (pageOf (stubs 0 20) false))
    {| TopicFeed.topics := [TopicFeed.FOR_YOU_TAB]; TopicFeed.selectedTopicIndex := 0;
       TopicFeed.articlesByTopic := ∅; TopicFeed.loadingArticles := false;
       TopicFeed.page := ∅; TopicFeed.hasMore := ∅ |}.


(** The home screen right after the keystroke [txt] typed at [at_]: its
    timer, the [n]-th, is the only one pending and nothing was requested. *)
Definition typed (st : HomeFeed.State) (n : Z) (at_ : Z) (txt : string) : HomeFeed.World :=
  {| HomeFeed.now := at_;
     HomeFeed.next_timer := n + 1;
     HomeFeed.timers := [{| HomeFeed.timer_id := n; HomeFeed.due := at_ + 500;
                            HomeFeed.text := txt |}];
     HomeFeed.screen :=
       {| HomeFeed.articles := HomeFeed.articles st; HomeFeed.loading := HomeFeed.loading st;
          HomeFeed.refreshing := HomeFeed.refreshing st; HomeFeed.page := HomeFeed.page st;
          HomeFeed.hasMore := HomeFeed.hasMore st;
          HomeFeed.searchQuery := txt; HomeFeed.searchTimer := Some n |};
     HomeFeed.issued := [];
     HomeFeed.pending := [] |}.

(** Keystrokes that follow each other by less than the delay, the first
    one less than the delay after [t]. *)
Fixpoint burst (t : Z) (keys : list (Z * string)) : Prop :=
  match keys with
  | [] => True
  | k :: keys' => t ≤ k.1 < t + 500 ∧ burst k.1 keys'
  end.

(** The one request of a burst that ends with [txt] typed at [at_]. *)
Definition burstRequest (at_ : Z) (txt : string) : HomeFeed.Flight :=
  {| HomeFeed.flight_id := 0; HomeFeed.issued_at := at_ + 500; HomeFeed.pageNum := 1;
     HomeFeed.search := txt; HomeFeed.request := HomeFeed.loadArticles_request 1 txt |}.

(** *** The searchable home screen as its user meets it *)

(** The list, with the search box in its header, is drawn unless the screen
    returns the spinner: [if (loading && page === 1)]. *)
Definition listShown (st : HomeFeed.State) : bool :=
  negb (HomeFeed.loading st && (HomeFeed.page st =? 1)).

(** What happens to the screen: the user types into the search box or
    scrolls the list to its end, time passes, the response to a request
    arrives. *)
Inductive Event : Type :=
| Typed (t : Z) (txt : string)
| EndReached (t : Z)
| Waited (t : Z)
| Arrived (i : nat) (o : Outcome ArticlesResponse).

(** One event; [None] when the screen cannot receive it: the box and the
    list are not drawn, the clock would run backwards, or no such request is
    awaited. *)
Definition step (e : Event) (w : HomeFeed.World) : option HomeFeed.World :=
  match e with
  | Typed t txt =>
      if bool_decide (HomeFeed.now w ≤ t)
         && listShown (HomeFeed.screen (HomeFeed.advance t w))
      then Some (HomeFeed.keystroke t txt w) else None
  | EndReached t =>
      let w' := HomeFeed.advance t w in
      if bool_decide (HomeFeed.now w ≤ t) && listShown (HomeFeed.screen w') then
        Some (match HomeFeed.handleLoadMore (HomeFeed.screen w') with
              | Some (pn, search) => HomeFeed.loadArticles_begin pn search w'
              | None => w'
              end)
      else None
  | Waited t =>
      if bool_decide (HomeFeed.now w ≤ t) then Some (HomeFeed.advance t w) else None
  | Arrived i o =>
      match HomeFeed.awaited i w with
      | Some _ => Some (HomeFeed.deliver i o w)
      | None => None
      end
  end.

Fixpoint run (es : list Event) (w : HomeFeed.World) : option HomeFeed.World :=
  match es with
  | [] => Some w
  | e :: es' => step e w ≫= run es'
  end.

(** The screen when it opens: the mount effect has called [loadArticles()]
    and the spinner is drawn. *)
Definition opened : HomeFeed.World :=
  HomeFeed.loadArticles_begin 1 "" (HomeFeed.mounted HomeFeed.initial).

(** A session with two searches.  The first page arrives; the user scrolls
    to the end of the list, which requests page 2, and types a; the search
    for a is issued at 2500 ms and the spinner replaces the list; page 2
    arrives, which lowers the loading flag and sets the page to 2, so that
    the list and the search box are drawn again; the user types ab, and the
    search for ab is issued at 3500 ms. *)
Definition searchTrace : list Event :=
  [Arrived 0 (Resolved (pageOf (stubs 0 20) true));
   EndReached 1000;
   Typed 2000 "a";
   Waited 2500;
   Arrived 1 (Resolved (pageOf (stubs 20 20) true));
   Typed 3000 "ab";
   Waited 3500].

(** The screen after that session: the searches for a (request 2) and for ab
    (request 3) are both awaited. *)
Definition twoSearches : HomeFeed.World :=
  default opened (run searchTrace opened).

(** ** Vocabulary of the further properties *)

(** The characters of a string. *)
Fixpoint chars (s : string) : list ascii :=
  match s with
  | EmptyString => []
  | String c s' => c :: chars s'
  end.

(** The characters that structure a URL: they separate its parts and the
    pairs of its query. *)
Definition separator (c : ascii) : bool :=
  bool_decide (c ∈ ["&"; "="; "?"; "#"; "/"; " "]%char).

(** [register] and [login], the two operations that store a session. *)
Definition isAuthOp (op : Api.Op) : bool :=
  match op with
  | Api.register _ _ _ | Api.login _ _ => true
  | _ => false
  end.

(** A backend that answers every request with 500 and an error body. *)
Definition failingEnv : Api.Env :=
  {| Api.API_BASE_URL := "https://api.sensybull.com";
     Api.fetch := λ _, Api.Got {| Api.status := 500;
                                  Api.json := Some (JObj [("error", JStr "Database down")]) |};
     Api.rejects := λ _, false |}.

(** The body of a successful login. *)
Definition sessionBody : Json :=
  JObj [("access_token", JStr "abc"); ("refresh_token", JStr "def");
        ("user", JObj [("name", JStr "Ada")])].

(** A backend that accepts every login. *)
Definition welcomingEnv : Api.Env :=
  {| Api.API_BASE_URL := "https://api.sensybull.com";
     Api.fetch := λ _, Api.Got {| Api.status := 200; Api.json := Some sessionBody |};
     Api.rejects := λ _, false |}.

(** Nobody signed in, nothing stored. *)
Definition signedOut : Api.World := {| Api.token := None; Api.items := ∅ |}.

(** The start of a new process: the service is constructed with no token
    and reads the stored one. *)
Definition restart (env : Api.Env) (w : Api.World) : Api.World :=
  Api.loadToken env (Api.with_token None w).

(** ** app/(tabs)/index.tsx, topic-tabbed: the tabs *)

Module TopicTabs.

(** [handleTopicChange(index)] *)
Definition handleTopicChange (index : nat) (st : TopicFeed.State) : TopicFeed.State :=
  {| TopicFeed.topics := TopicFeed.topics st;
     TopicFeed.selectedTopicIndex := index;
     TopicFeed.articlesByTopic := TopicFeed.articlesByTopic st;
     TopicFeed.loadingArticles := TopicFeed.loadingArticles st;
     TopicFeed.page := TopicFeed.page st;
     TopicFeed.hasMore := TopicFeed.hasMore st |}.

(** The continuation of [loadFollowedTopics]: [topics] is the member of that
    name of the response, [None] when the response has none.  (The flag
    [loadingTopics] only selects what is drawn and is left out.) *)
Definition loadFollowedTopics_end (o : Outcome (option (list TopicFeed.Topic)))
  (st : TopicFeed.State) : TopicFeed.State :=
  let setTopics ts :=
    {| TopicFeed.topics := ts;
       TopicFeed.selectedTopicIndex := TopicFeed.selectedTopicIndex st;
       TopicFeed.articlesByTopic := TopicFeed.articlesByTopic st;
       TopicFeed.loadingArticles := TopicFeed.loadingArticles st;
       TopicFeed.page := TopicFeed.page st;
       TopicFeed.hasMore := TopicFeed.hasMore st |} in
  match o with
  | Resolved (Some (t :: ts)) => setTopics (TopicFeed.FOR_YOU_TAB :: t :: ts)
  | Resolved _ => setTopics [TopicFeed.FOR_YOU_TAB]
  | Rejected _ => st
  end.

(** A tap on a tab, with the effect that follows the render.  The effect
    has the dependencies [[selectedTopicIndex, topics]]: it runs when the tap
    selects another tab, and not when the index stays what it was. *)
Definition selectTab (index : nat) (st : TopicFeed.State)
  : TopicFeed.State * option TopicFeed.Pending :=
  if decide (index = TopicFeed.selectedTopicIndex st)
  then (handleTopicChange index st, None)
  else TopicFeed.onTopicSelected (handleTopicChange index st).

End TopicTabs.

(** ** app/(tabs)/swipe.tsx, the paged deck *)

Module SwipeFeed.

(** The route parameters. *)
Record Params : Type := {
  articleId : option string;
  topicId : option string
}.

Record State : Type := {
  articles : list Article;
  loading : bool;
  currentIndex : Z;
  fetchingMore : bool;
  page : Z;
  followedTopics : gset string;
  question : string;
  expandedSummaryId : option string
}.

Definition initial : State :=
  {| articles := []; loading := true; currentIndex := 0; fetchingMore := false;
     page := 1; followedTopics := ∅; question := ""; expandedSummaryId := None |}.

(** The request of [loadArticles(pageNum)]: the articles of the topic for the
    first page of a deck opened on a topic, the general feed otherwise. *)
Definition loadArticles_request (p : Params) (pn : Z) : Api.Op :=
  match topicId p with
  | Some t =>
      if truthy_str t && bool_decide (t ≠ "for-you") && (pn =? 1)
      then Api.getTopicArticles t pn 20
      else Api.getArticles (pageParams pn)
  | None => Api.getArticles (pageParams pn)
  end.

Definition loadArticles_begin (p : Params) (pn : Z) (st : State) : State * Api.Op :=
  ({| articles := articles st;
      loading := if pn =? 1 then true else loading st;
      currentIndex := currentIndex st;
      fetchingMore := if pn =? 1 then fetchingMore st else true;
      page := page st; followedTopics := followedTopics st;
      question := question st; expandedSummaryId := expandedSummaryId st |},
   loadArticles_request p pn).

(** [findIndex(a => a.id === articleId)]; [None] is the result -1. *)
Definition findIndex (i : string) (l : list Article) : option nat :=
  fst <$> list_find (λ a, Data.id a = i) l.

(** The continuation of [loadArticles]: a first page replaces the list and,
    when the deck was opened on an article that is in it, moves to that
    article. *)
Definition loadArticles_end (p : Params) (pn : Z) (o : Outcome ArticlesResponse)
  (st : State) : State :=
  match o with
  | Resolved response =>
      {| articles := if pn =? 1 then Data.articles response
                     else articles st ++ Data.articles response;
         loading := false;
         currentIndex :=
           if pn =? 1 then
             match articleId p with
             | Some i =>
                 if truthy_str i then
                   match findIndex i (Data.articles response) with
                   | Some index => Z.of_nat index
                   | None => currentIndex st
                   end
                 else currentIndex st
             | None => currentIndex st
             end
           else currentIndex st;
         fetchingMore := false;
         page := pn; followedTopics := followedTopics st;
         question := question st; expandedSummaryId := expandedSummaryId st |}
  | Rejected _ =>
      {| articles := articles st; loading := false; currentIndex := currentIndex st;
         fetchingMore := false; page := page st; followedTopics := followedTopics st;
         question := question st; expandedSummaryId := expandedSummaryId st |}
  end.

(** [onEndReached] of the list. *)
Definition onEndReached (p : Params) (st : State) : State * option Api.Op :=
  if negb (fetchingMore st) && (20 <=? Z.of_nat (length (articles st)))
  then let '(st', op) := loadArticles_begin p (page st + 1) st in (st', Some op)
  else (st, None).

(** The Refresh button of the last card. *)
Definition refresh (p : Params) (st : State) : State * Api.Op :=
  loadArticles_begin p 1
    {| articles := articles st; loading := loading st; currentIndex := 0;
       fetchingMore := fetchingMore st; page := 1; followedTopics := followedTopics st;
       question := question st; expandedSummaryId := expandedSummaryId st |}.

Definition setFollowedTopics (s : gset string) (st : State) : State :=
  {| articles := articles st; loading := loading st; currentIndex := currentIndex st;
     fetchingMore := fetchingMore st; page := page st; followedTopics := s;
     question := question st; expandedSummaryId := expandedSummaryId st |}.

(** The continuation of [loadFollowedTopics]: the ids of the topics of the
    response. *)
Definition loadFollowedTopics_end (o : Outcome (list TopicFeed.Topic)) (st : State)
  : State :=
  match o with
  | Resolved topics => setFollowedTopics (list_to_set (TopicFeed.id <$> topics)) st
  | Rejected _ => st
  end.

(** [handleToggleFollowTopic(topicId)] up to its [await]: the request is
    chosen by the set of the calling render. *)
Definition handleToggleFollowTopic_begin (topic : string) (st : State) : Api.Op :=
  if bool_decide (topic ∈ followedTopics st) then Api.unfollowTopic topic
  else Api.followTopic topic.



(** [handleSendQuestion]: the text of the alert, if one is raised. *)
Definition handleSendQuestion (st : State) : State * option string :=
  if truthy_str (trim (question st)) then
    ({| articles := articles st; loading := loading st; currentIndex := currentIndex st;
        fetchingMore := fetchingMore st; page := page st;
        followedTopics := followedTopics st; question := "";
        expandedSummaryId := expandedSummaryId st |},
     Some ("You asked: " +:+ question st))
  else (st, None).

(** [toggleSummaryExpanded(articleId)] *)
Definition toggleSummaryExpanded (i : string) (st : State) : State :=
  {| articles := articles st; loading := loading st; currentIndex := currentIndex st;
     fetchingMore := fetchingMore st; page := page st;
     followedTopics := followedTopics st; question := question st;
     expandedSummaryId := if bool_decide (expandedSummaryId st = Some i) then None
                          else Some i |}.

End SwipeFeed.

(** ** app/(tabs)/watchlist.tsx *)

Module Watchlist.

(** [interface Ticker]; the price is kept as the number the server sent. *)
Record Ticker : Type := {
  id : string;
  symbol : string;
  name : string;
  last_price : option Json;
  last_updated : option string
}.

Record State : Type := {
  watchlist : list Ticker;
  searchQuery : string;
  searchResults : list Ticker;
  loading : bool;
  searching : bool;
  isSearchMode : bool
}.

Definition initial : State :=
  {| watchlist := []; searchQuery := ""; searchResults := []; loading := true;
     searching := false; isSearchMode := false |}.

(** The continuation of [loadWatchlist]: [response.tickers || []]. *)
Definition loadWatchlist_end (o : Outcome (option (list Ticker))) (st : State) : State :=
  match o with
  | Resolved tickers =>
      {| watchlist := default [] tickers; searchQuery := searchQuery st;
         searchResults := searchResults st; loading := false;
         searching := searching st; isSearchMode := isSearchMode st |}
  | Rejected _ =>
      {| watchlist := watchlist st; searchQuery := searchQuery st;
         searchResults := searchResults st; loading := false;
         searching := searching st; isSearchMode := isSearchMode st |}
  end.

(** [handleSearch(query)] up to its [await]. *)
Definition handleSearch_begin (query : string) (st : State) : State * option Api.Op :=
  if negb (truthy_str (trim query)) then
    ({| watchlist := watchlist st; searchQuery := query; searchResults := [];
        loading := loading st; searching := searching st; isSearchMode := false |},
     None)
  else
    ({| watchlist := watchlist st; searchQuery := query;
        searchResults := searchResults st; loading := loading st;
        searching := true; isSearchMode := true |},
     Some (Api.searchTickers query 1 20)).

Definition handleSearch_end (o : Outcome (option (list Ticker))) (st : State) : State :=
  {| watchlist := watchlist st; searchQuery := searchQuery st;
     searchResults := match o with
                      | Resolved tickers => default [] tickers
                      | Rejected _ => searchResults st
                      end;
     loading := loading st; searching := false; isSearchMode := isSearchMode st |}.

(** [handleFollowTicker(ticker)]: its request, and its continuation. *)
Definition handleFollowTicker_request (t : Ticker) : Api.Op := Api.followTicker (symbol t).

Definition handleFollowTicker_end (t : Ticker) (o : Outcome Json) (st : State) : State :=
  match o with
  | Resolved _ =>
      {| watchlist := watchlist st ++ [t]; searchQuery := searchQuery st;
         searchResults := filter (λ x, id x ≠ id t) (searchResults st);
         loading := loading st; searching := searching st;
         isSearchMode := isSearchMode st |}
  | Rejected _ => st
  end.

(** [handleUnfollowTicker(ticker)] once Remove is chosen in the dialog. *)
Definition handleUnfollowTicker_request (t : Ticker) : Api.Op := Api.unfollowTicker (symbol t).

Definition handleUnfollowTicker_end (t : Ticker) (o : Outcome Json) (st : State) : State :=
  match o with
  | Resolved _ =>
      {| watchlist := filter (λ x, id x ≠ id t) (watchlist st);
         searchQuery := searchQuery st; searchResults := searchResults st;
         loading := loading st; searching := searching st;
         isSearchMode := isSearchMode st |}
  | Rejected _ => st
  end.

End Watchlist.

(** ** app/stock/[symbol].tsx: the header *)

Module StockHeader.

Record State : Type := {
  symbol : string;               (* the route parameter *)
  ticker : option Watchlist.Ticker;
  isFollowing : bool
}.


Definition loadTickerData_ticker (o : Outcome (option Watchlist.Ticker)) (st : State)
  : State * option Api.Op :=
  match o with
  | Resolved t =>
      ({| symbol := symbol st; ticker := t; isFollowing := isFollowing st |},
       Some Api.getFollowedTickers)
  | Rejected _ => (st, None)
  end.


(** [handleToggleFollow]: nothing without a ticker; else the request chosen
    by the flag. *)
Definition handleToggleFollow_begin (st : State) : option Api.Op :=
  match ticker st with
  | None => None
  | Some t =>
      Some (if isFollowing st then Api.unfollowTicker (Watchlist.symbol t)
            else Api.followTicker (Watchlist.symbol t))
  end.

(** Its continuation: [was] is the flag of the calling render. *)
Definition handleToggleFollow_end (was : bool) (o : Outcome Json) (st : State) : State :=
  match o with
  | Resolved _ => {| symbol := symbol st; ticker := ticker st; isFollowing := negb was |}
  | Rejected _ => st
  end.

(** A toggle that runs to its response before the next event. *)
Definition toggleFollow (o : Outcome Json) (st : State) : State :=
  match handleToggleFollow_begin st with
  | Some _ => handleToggleFollow_end (isFollowing st) o st
  | None => st
  end.

End StockHeader.

(** ** app/(tabs)/swipe.tsx: the colour of a card *)

Module Palette.

(** [ToInt32]: the value a bitwise operator leaves. *)
Definition toInt32 (z : Z) : Z := (z + 2 ^ 31) mod 2 ^ 32 - 2 ^ 31.

(** One round of the loop of [simpleHash]:
    [hash = ((hash << 5) - hash) + char; hash = hash & hash]. *)
Definition mix (hash : Z) (c : ascii) : Z :=
  toInt32 (toInt32 (hash * 2 ^ 5) - hash + Z.of_N (N_of_ascii c)).

Fixpoint simpleHash_from (hash : Z) (str : string) : Z :=
  match str with
  | EmptyString => hash
  | String c str' => simpleHash_from (mix hash c) str'
  end.

Definition simpleHash (str : string) : Z := Z.abs (simpleHash_from 0 str).

(** [str.substring(0, n)] *)
Fixpoint substring0 (n : nat) (str : string) : string :=
  match n, str with
  | S n', String c str' => String c (substring0 n' str')
  | _, _ => EmptyString
  end.

(** [%] keeps the sign of the dividend. *)
Definition channels (hash : Z) : Z * Z * Z :=
  (Z.rem hash 100 + 50, Z.rem (hash * 2) 100 + 50, Z.rem (hash * 3) 100 + 50).

Definition rgb (c : Z * Z * Z) : string :=
  "rgb(" +:+ Number_toString c.1.1 +:+ ", " +:+ Number_toString c.1.2 +:+ ", "
         +:+ Number_toString c.2 +:+ ")".

(** The colour [extractLeastDominantColor] finds: [o] is the outcome of the
    image manipulation, with the base64 text if it produced one. *)
Definition colorOf (o : Outcome (option string)) : string :=
  match o with
  | Resolved (Some base64) =>
      if truthy_str base64 then rgb (channels (simpleHash (substring0 100 base64)))
      else "#1a1a1a"
  | Resolved None => "#1a1a1a"
  | Rejected _ => "#1a1a1a"
  end.

(** [extractLeastDominantColor(imageUri)].  The test at its head reads
    [seen], the cache of the render the call belongs to; the image is then
    manipulated, and when that has ended [setImageColors(prev => ...)] writes
    into [imageColors], the cache as it is by then. *)
Definition extractLeastDominantColor (imageUri : string) (seen : gmap string string)
  (o : Outcome (option string)) (imageColors : gmap string string) : gmap string string :=
  if bool_decide (is_Some (seen !! imageUri)) then imageColors
  else <[imageUri := colorOf o]> imageColors.

End Palette.

(** ** Relative times: [formatTimestamp] of the stock and swipe screens *)

Module RelativeTime.

(** What is shown; the calendar date of an older article is formatted by the
    locale of the device. *)
Inductive Label : Type :=
| JustNow
| Ago (n : Z) (unit : string)
| LocaleDate (timestamp : Z).

(** [formatTimestamp(timestamp)] at clock reading [now], both in
    milliseconds. *)
Definition formatTimestamp (now timestamp : Z) : Label :=
  let diffMs := now - timestamp in
  let diffMins := diffMs / 60000 in
  let diffHours := diffMins / 60 in
  let diffDays := diffHours / 24 in
  if diffMins <? 1 then JustNow
  else if diffMins <? 60 then Ago diffMins (if diffMins =? 1 then "minute" else "minutes")
  else if diffHours <? 24 then Ago diffHours (if diffHours =? 1 then "hour" else "hours")
  else if diffDays <? 7 then Ago diffDays (if diffDays =? 1 then "day" else "days")
  else LocaleDate timestamp.

(** The text of a label that does not depend on the locale. *)
Definition text (l : Label) : option string :=
  match l with
  | JustNow => Some "Just now"
  | Ago n unit => Some (Number_toString n +:+ " " +:+ unit +:+ " ago")
  | LocaleDate _ => None
  end.

End RelativeTime.

(** ** app/services/groq.ts: the two completion services *)

Module GroqService.

(** [interface ArticleContext] *)
Record ArticleContext : Type := {
  title : string;
  summary : string;
  bullets : list string;
  tickers : list Data.TickerRef
}.

Definition strings (j : option Json) : option (list string) :=
  match j with
  | Some (JArr l) => mapM (λ x, match x with JStr s => Some s | _ => None end) l
  | _ => None
  end.

Definition tickerRefs (j : option Json) : option (list Data.TickerRef) :=
  match j with
  | Some (JArr l) =>
      mapM (λ x, match x with
                 | JObj ms =>
                     match member "symbol" ms, member "name" ms with
                     | Some (JStr s), Some (JStr n) =>
                         Some {| Data.symbol := s; Data.name := n |}
                     | _, _ => None
                     end
                 | _ => None
                 end) l
  | _ => None
  end.

(** A parsed value read as the interface declares it; [None] for a value of
    another shape, on which the service is not modelled. *)
Definition asArticleContext (j : Json) : option ArticleContext :=
  match j with
  | JObj ms =>
      match member "title" ms, member "summary" ms with
      | Some (JStr t), Some (JStr s) =>
          bs ← strings (member "bullets" ms);
          ts ← tickerRefs (member "tickers" ms);
          Some {| title := t; summary := s; bullets := bs; tickers := ts |}
      | _, _ => None
      end
  | _ => None
  end.

Definition newline : string := String "010" "".

(** [bullets.map((b, i) => `${i + 1}. ${b}`)] *)
Definition numbered (bullets : list string) : list string :=
  imap (λ i b, Number_toString (Z.of_nat i + 1) +:+ ". " +:+ b) bullets.

Definition buildContextMessage (context : ArticleContext) : string :=
  let tickersText :=
    join ", " ((λ t, Data.name t +:+ " (" +:+ Data.symbol t +:+ ")") <$> tickers context) in
  let bulletsText := join newline (numbered (bullets context)) in
  "You are discussing the following article:" +:+ newline +:+ newline
  +:+ "Title: " +:+ title context +:+ newline +:+ newline
  +:+ "Summary: " +:+ summary context +:+ newline +:+ newline
  +:+ "Key Points:" +:+ newline
  +:+ bulletsText +:+ newline +:+ newline
  +:+ "Related Companies: " +:+ tickersText +:+ newline +:+ newline
  +:+ "Use this context to answer questions accurately. If the user asks about specific details not mentioned in the article, you can acknowledge what's in the article and provide general knowledge while being clear about what is from the article versus general information.".

Definition instruction : Groq.Message :=
  {| Groq.role := Groq.system;
     Groq.content := "You are Sensybull, a helpful AI assistant specializing in financial news and market insights. Provide concise, accurate, and helpful responses about stocks, companies, and market trends. Always base your responses on the article context when provided." |}.

(** The system messages the service builds: the article, if a context is
    given, then the general instruction. *)
Definition systemMessages (articleContext : option Json) : option (list Groq.Message) :=
  if truthy articleContext then
    context ← asArticleContext (default JNull articleContext);
    Some [{| Groq.role := Groq.system; Groq.content := buildContextMessage context |};
          instruction]
  else Some [instruction].

(** The [messages] member of the request body of [sendMessage]. *)
Definition requestMessages (c : Groq.Call) : option (list Groq.Message) :=
  sys ← systemMessages (Groq.articleContext c);
  Some (sys ++ Groq.messages c).

(** [x?.k]: undefined for null and undefined, the member otherwise. *)
Definition optChain (x : option Json) (k : string) : option Json :=
  match x with
  | None | Some JNull => None
  | Some (JObj ms) => member k ms
  | Some _ => None
  end.

(** [data.choices[0]?.message?.content || 'No response generated'] on the
    body of a successful response; the property access throws when the body
    has no [choices]. *)
Definition reply (data : Json) : Outcome Json :=
  match prop data "choices" with
  | Some (Some (JArr choices)) =>
      let content := optChain (optChain (choices !! 0%nat) "message") "content" in
      Resolved (if truthy content then default JNull content
                else JStr "No response generated")
  | Some (Some (JObj ms)) =>
      let content := optChain (optChain (member "0" ms) "message") "content" in
      Resolved (if truthy content then default JNull content
                else JStr "No response generated")
  | Some (Some (JStr s)) =>
      (* a character of a string has no member [message] *)
      Resolved (JStr "No response generated")
  | Some (Some (JBool _)) | Some (Some (JNum _ _)) =>
      Resolved (JStr "No response generated")
  | Some (Some JNull) | Some None | None => Rejected TypeError
  end.

End GroqService.

(** The variant that goes through the backend ([POST /chat]). *)
Module ChatService.

(** The headers of the request: the bearer is the stored access token, read
    from the storage for each call; [None] when the storage rejects. *)
Definition headers (env : Api.Env) (w : Api.World) : option (list (string * string)) :=
  match Api.AsyncStorage_getItem env "access_token" w with
  | None => None
  | Some token =>
      Some (("Content-Type", "application/json") ::
            match token with
            | Some t => if truthy_str t then [("Authorization", "Bearer " +:+ t)] else []
            | None => []
            end)
  end.

(** [data.response || 'No response generated'] *)
Definition reply (data : Json) : Outcome Json :=
  match prop data "response" with
  | None => Rejected TypeError
  | Some r => Resolved (if truthy r then default JNull r else JStr "No response generated")
  end.

End ChatService.

(** Two tabs, each with a first page shown; the first tab is selected. *)
Definition twoTabsShown : TopicFeed.State :=
  TopicFeed.loadFirst "t7" (Resolved (pageOf (stubs 100 3) false))
    (TopicFeed.loadFirst "for-you" (Resolved (pageOf (stubs 0 20) true))
       {| TopicFeed.topics := [TopicFeed.FOR_YOU_TAB;
                               {| TopicFeed.id := "t7"; TopicFeed.name := "Energy" |}];
          TopicFeed.selectedTopicIndex := 0;
          TopicFeed.articlesByTopic := ∅; TopicFeed.loadingArticles := false;
          TopicFeed.page := ∅; TopicFeed.hasMore := ∅ |}).

(** Two tabs, the first selected and shown; the second was never loaded. *)
Definition secondTabUnloaded : TopicFeed.State :=
  TopicFeed.loadFirst "for-you" (Resolved (pageOf (stubs 0 20) true))
    {| TopicFeed.topics := [TopicFeed.FOR_YOU_TAB;
                            {| TopicFeed.id := "t7"; TopicFeed.name := "Energy" |}];
       TopicFeed.selectedTopicIndex := 0;
       TopicFeed.articlesByTopic := ∅; TopicFeed.loadingArticles := false;
       TopicFeed.page := ∅; TopicFeed.hasMore := ∅ |}.

(** The request [loadArticlesForTopic] makes for the first page of a key. *)
Definition firstPageRequest (key : string) : Api.Op :=
  if decide (key = "for-you") then Api.getArticles (pageParams 1)
  else Api.getTopicArticles key 1 20.

(** The deck opened from the home screen on the article a7 of the topic t7. *)
Definition deckParams : SwipeFeed.Params :=
  {| SwipeFeed.articleId := Some "a7"; SwipeFeed.topicId := Some "t7" |}.

(** Sample tickers. *)
Definition aapl : Watchlist.Ticker :=
  {| Watchlist.id := "1"; Watchlist.symbol := "AAPL"; Watchlist.name := "Apple";
     Watchlist.last_price := None; Watchlist.last_updated := None |}.

Definition msft : Watchlist.Ticker :=
  {| Watchlist.id := "2"; Watchlist.symbol := "MSFT"; Watchlist.name := "Microsoft";
     Watchlist.last_price := None; Watchlist.last_updated := None |}.

(** A watchlist with Apple, and a search that found Microsoft. *)
Definition watching : Watchlist.State :=
  {| Watchlist.watchlist := [aapl]; Watchlist.searchQuery := "micro";
     Watchlist.searchResults := [msft]; Watchlist.loading := false;
     Watchlist.searching := false; Watchlist.isSearchMode := true |}.


(** The chat opened without an article and without a question. *)
Definition plainChat : Chat.State :=
  (Chat.ChatScreen 0 {| Chat.context := None; Chat.question := None |}).1.

(** The text shown when the provider fails. *)
Definition apology : string :=
  "I'm sorry, I encountered an error processing your question. Please try again.".

(** A completion whose first choice carries [content]. *)
Definition completion (content : Json) : Json :=
  JObj [("choices", JArr [JObj [("message", JObj [("role", JStr "assistant");
                                                   ("content", content)])]])].

(** [setInputText(text)]: the user has typed [text] into the input box. *)
Definition setInputText (text : string) (st : Chat.State) : Chat.State :=
  {| Chat.articleContext := Chat.articleContext st; Chat.messages := Chat.messages st;
     Chat.inputText := text; Chat.isLoading := Chat.isLoading st;
     Chat.initialQuestion := Chat.initialQuestion st |}.

(** A link to the chat that carries a question and no article. *)
Definition questionLink : Chat.Params :=
  {| Chat.context := None; Chat.question := Some "Why did it fall?" |}.

(** * Properties *)

(** ** Gateway: query strings *)

Lemma foldl_appendParam (params : Api.Params) (q : list (string * string)) :
  foldl Api.appendParam q params = q ++ omap definedParam params.
Proof.
  revert q. induction params as [|[k [v|]] params IH]; intros q; simpl.
  - by rewrite app_nil_r.
  - rewrite IH. unfold Api.appendParam; simpl. by rewrite <- app_assoc.
  - rewrite IH. done.
Qed.

Lemma buildQuery_omap (params : Api.Params) :
  Api.buildQuery params = omap definedParam params.
Proof. unfold Api.buildQuery. by rewrite foldl_appendParam. Qed.

Lemma elem_of_buildQuery (params : Api.Params) (k s : string) :
  (k, s) ∈ Api.buildQuery params ↔ ∃ x, (k, Some x) ∈ params ∧ s = Api.toString x.
Proof.
  rewrite buildQuery_omap, list_elem_of_omap. split.
  - intros [[k' [v|]] [Hin Heq]]; [|done].
    unfold definedParam in Heq; simplify_eq/=. eauto.
  - intros [x [Hin ->]]. exists (k, Some x). done.
Qed.

Lemma NoDup_fst_functional {A B} (l : list (A * B)) (k : A) (a b : B) :
  NoDup l.*1 → (k, a) ∈ l → (k, b) ∈ l → a = b.
Proof.
  induction l as [|[k' c] l IH]; simpl; intros Hnd Ha Hb.
  - by apply elem_of_nil in Ha.
  - apply NoDup_cons in Hnd as [Hnotin Hnd].
    apply elem_of_cons in Ha as [Ha|Ha], Hb as [Hb|Hb]; simplify_eq; auto.
    + destruct Hnotin. apply list_elem_of_fmap. by exists (k', b).
    + destruct Hnotin. apply list_elem_of_fmap. by exists (k', a).
Qed.

(** C7.  The query built by [getArticles] and [getAllTopics] from the entries
    of [params] (an object: no name occurs twice): a parameter whose value is
    [undefined] contributes no pair at all, whatever the value, so in
    particular none with the empty string; a defined parameter contributes
    the pair of its name and its value converted by [toString]; nothing else
    is in the query; and the URL carries exactly this query. *)
Theorem query_omits_undefined_params (env : Api.Env) (params : Api.Params) :
  NoDup params.*1 →
  (∀ k, (k, None) ∈ params → ∀ s, (k, s) ∉ Api.buildQuery params) ∧
  (∀ k x, (k, Some x) ∈ params → (k, Api.toString x) ∈ Api.buildQuery params) ∧
  (∀ k s, (k, s) ∈ Api.buildQuery params →
     ∃ x, (k, Some x) ∈ params ∧ s = Api.toString x) ∧
  Api.url_of env (Api.getArticles params) =
    Api.API_BASE_URL env +:+ "/articles?"
      +:+ Api.URLSearchParams_toString (Api.buildQuery params) ∧
  Api.url_of env (Api.getAllTopics params) =
    Api.API_BASE_URL env +:+ "/topics?"
      +:+ Api.URLSearchParams_toString (Api.buildQuery params).
Proof.
  intros Hnd. split_and!; try done.
  - intros k Hnone s [x [Hsome _]]%elem_of_buildQuery.
    assert (None = Some x) as Habs; [|done].
    eapply NoDup_fst_functional; eauto.
  - intros k x Hin. apply elem_of_buildQuery. eauto.
  - intros k s Hin. by apply elem_of_buildQuery.
Qed.

Lemma query_omits_undefined_params_witness :
  (∀ k, (k, None) ∈ sampleParams → ∀ s, (k, s) ∉ Api.buildQuery sampleParams) ∧
  Api.url_of sampleEnv (Api.getArticles sampleParams) =
    "https://api.sensybull.com/articles?page=1&per_page=20".
Proof.
  destruct (query_omits_undefined_params sampleEnv sampleParams) as (H1 & _ & _ & H2 & _).
  - apply (bool_decide_unpack _). vm_compute. exact I.
  - split; [exact H1 | rewrite H2; reflexivity].
Defined.

Example searchTickers_url :
  Api.url_of sampleEnv (Api.searchTickers "a&b c" 1 10) =
    "https://api.sensybull.com/tickers?q=a%26b%20c&page=1&per_page=10".
Proof. reflexivity. Qed.

Example search_query_url :
  Api.url_of sampleEnv (HomeFeed.loadArticles_request 1 "rate cut") =
    "https://api.sensybull.com/articles?page=1&per_page=20&search=rate+cut" ∧
  Api.url_of sampleEnv (HomeFeed.loadArticles_request 2 "") =
    "https://api.sensybull.com/articles?page=2&per_page=20".
Proof. split; reflexivity. Qed.

(** ** Gateway: ticker symbols in paths *)

Lemma toUpperCase_char_not_lower (c : ascii) : is_lower (toUpperCase_char c) = false.
Proof. by destruct c as [[] [] [] [] [] [] [] []]. Qed.

Lemma toUpperCase_no_lower (s : string) : has_lower (toUpperCase s) = false.
Proof.
  induction s as [|c s IH]; simpl; [done|].
  by rewrite toUpperCase_char_not_lower, IH.
Qed.

(** [getTicker], [followTicker] and [unfollowTicker] put the upper-cased
    symbol in the path. *)
Lemma ticker_paths_uppercase (env : Api.Env) (sym : string) :
  Api.url_of env (Api.getTicker sym) =
    Api.API_BASE_URL env +:+ "/tickers/" +:+ toUpperCase sym ∧
  Api.url_of env (Api.followTicker sym) =
    Api.API_BASE_URL env +:+ "/tickers/" +:+ toUpperCase sym +:+ "/follow" ∧
  Api.url_of env (Api.unfollowTicker sym) =
    Api.API_BASE_URL env +:+ "/tickers/" +:+ toUpperCase sym +:+ "/unfollow".
Proof. done. Qed.

(** C6.  [getArticlesByTicker] places the symbol in the path as it was
    given: called with the symbol aapl it requests the path
    /articles/ticker/aapl, while [getTicker] called with the same symbol
    requests /tickers/AAPL. *)
Theorem getArticlesByTicker_keeps_case (env : Api.Env) :
  Api.url_of env (Api.getArticlesByTicker "aapl" 1 20) =
    Api.API_BASE_URL env +:+ "/articles/ticker/aapl?page=1&per_page=20" ∧
  Api.url_of env (Api.getTicker "aapl") = Api.API_BASE_URL env +:+ "/tickers/AAPL".
Proof. split; reflexivity. Qed.

(** In general the path segment of [getArticlesByTicker] is the argument
    itself. *)
Lemma getArticlesByTicker_path (env : Api.Env) (ticker : string) (page perPage : Z) :
  Api.url_of env (Api.getArticlesByTicker ticker page perPage) =
    Api.API_BASE_URL env +:+ "/articles/ticker/" +:+ ticker +:+ Api.paging page perPage.
Proof. done. Qed.

(** ** Gateway: the 401 response *)

Lemma clearToken_clears (env : Api.Env) (w : Api.World) :
  storageWorks env → tokensCleared (Api.clearToken env w).
Proof.
  intros [H1 H2]. unfold Api.clearToken, Api.AsyncStorage_removeItem.
  rewrite H1, H2. unfold tokensCleared; simpl. split_and!; [done| |].
  - rewrite lookup_delete_ne by done. apply lookup_delete_eq.
  - apply lookup_delete_eq.
Qed.

Lemma handleResponse_401 (env : Api.Env) (r : Api.Response) (w : Api.World) :
  Api.status r = 401 →
  Api.handleResponse env r w =
    (Rejected (Error (JStr "Authentication required")), Api.clearToken env w).
Proof. intros H. unfold Api.handleResponse. by rewrite H. Qed.

Lemma call_401 (env : Api.Env) (op : Api.Op) (w : Api.World) (r : Api.Response) :
  Api.fetch env (Api.request_of env op w) = Api.Got r →
  Api.status r = 401 →
  Api.call env op w =
    (Rejected (Error (JStr "Authentication required")), Api.clearToken env w).
Proof.
  intros Hf Hs. unfold Api.call. rewrite Hf, (handleResponse_401 _ _ _ Hs). done.
Qed.

(** C3.  Whatever the operation and whatever the token and the stored items
    were before: when the response to its request has status 401, the call
    fails with the error Authentication required, and (the storage carrying
    out the two removals) afterwards the in-memory token is null and neither
    access_token nor refresh_token is stored. *)
Theorem unauthorized_clears_tokens
  (env : Api.Env) (op : Api.Op) (w : Api.World) (r : Api.Response) :
  Api.fetch env (Api.request_of env op w) = Api.Got r →
  Api.status r = 401 →
  (Api.call env op w).1 = Rejected (Error (JStr "Authentication required")) ∧
  (storageWorks env → tokensCleared (Api.call env op w).2).
Proof.
  intros Hf Hs. rewrite (call_401 _ _ _ _ Hf Hs). simpl.
  split; [done|]. apply clearToken_clears.
Qed.

Lemma unauthorized_clears_tokens_witness :
  (Api.call sampleEnv Api.getFollowedTickers signedIn).1
    = Rejected (Error (JStr "Authentication required")) ∧
  tokensCleared (Api.call sampleEnv Api.getFollowedTickers signedIn).2.
Proof.
  destruct (unauthorized_clears_tokens sampleEnv Api.getFollowedTickers signedIn
              {| Api.status := 401; Api.json := None |}) as [Herr Hclear].
  - reflexivity.
  - reflexivity.
  - split; [exact Herr | apply Hclear; split; reflexivity].
Defined.

(** When the first removal is refused by the storage, [clearToken] stops
    there: the call still fails with the same error, and the token stays. *)
Lemma unauthorized_storage_refusing (env : Api.Env) (op : Api.Op) (w : Api.World)
  (r : Api.Response) :
  Api.fetch env (Api.request_of env op w) = Api.Got r →
  Api.status r = 401 →
  Api.rejects env (Api.RemoveItem "access_token") = true →
  Api.call env op w = (Rejected (Error (JStr "Authentication required")), w).
Proof.
  intros Hf Hs Hrej. rewrite (call_401 _ _ _ _ Hf Hs).
  unfold Api.clearToken, Api.AsyncStorage_removeItem. by rewrite Hrej.
Qed.

(** ** Chat session *)

Lemma truthy_str_false (s : string) : truthy_str s = false ↔ s = "".
Proof.
  unfold truthy_str. rewrite bool_decide_eq_false. split.
  - intros H. by destruct (decide (s = "")).
  - intros -> H. by apply H.
Qed.

(** The guard at the head of [handleSendMessage]. *)
Lemma handleSendMessage_guard
  (now : Z) (messageText : option string) (seen st : Chat.State) :
  trim (Chat.effectiveText messageText seen) = "" ∨ Chat.isLoading seen = true →
  Chat.handleSendMessage_begin now messageText seen st = (st, None).
Proof.
  intros H. unfold Chat.handleSendMessage_begin.
  destruct H as [H|H].
  - apply truthy_str_false in H. by rewrite H.
  - rewrite H. by rewrite orb_true_r.
Qed.

(** The guard of [handleSendMessage] as a render has it: when the text to
    send (the argument, or the input box when the argument is absent or
    empty) trims to the empty string, or when the render the handler belongs
    to has [isLoading] set, the state, and with it the transcript, is
    returned unchanged and no call to the completion provider is made. *)
Theorem send_blank_or_busy_is_noop
  (now : Z) (messageText : option string) (seen st : Chat.State) :
  trim (Chat.effectiveText messageText seen) = "" ∨ Chat.isLoading seen = true →
  Chat.handleSendMessage_begin now messageText seen st = (st, None) ∧
  Chat.messages (Chat.handleSendMessage_begin now messageText seen st).1 = Chat.messages st ∧
  (Chat.handleSendMessage_begin now messageText seen st).2 = None.
Proof.
  intros H. by rewrite (handleSendMessage_guard now messageText seen st H).
Qed.

Lemma send_blank_or_busy_is_noop_witness :
  Chat.handleSendMessage_begin 1700000000500 (Some "   ") greeted greeted = (greeted, None).
Proof.
  apply (send_blank_or_busy_is_noop 1700000000500 (Some "   ") greeted greeted).
  left. reflexivity.
Defined.

(** For the handler of the current render: the two texts the specification
    names (the empty one with an empty input box), and a send that overlaps
    another. *)
Lemma send_examples (now : Z) (st : Chat.State) (text : string) :
  (Chat.inputText st = "" →
     Chat.handleSendMessage_begin now (Some "") st st = (st, None) ∧
     Chat.handleSendMessage_begin now None st st = (st, None)) ∧
  Chat.handleSendMessage_begin now (Some "   ") st st = (st, None) ∧
  (Chat.isLoading st = true →
     Chat.handleSendMessage_begin now (Some text) st st = (st, None)).
Proof.
  split_and!.
  - intros Hin. split; apply handleSendMessage_guard; left;
      unfold Chat.effectiveText; simpl; by rewrite Hin.
  - apply handleSendMessage_guard. by left.
  - intros Hl. apply handleSendMessage_guard. by right.
Qed.

(** An accepted send appends exactly the user's message and calls the
    provider once. *)
Lemma send_accepted (now : Z) (messageText : option string) (seen st : Chat.State) :
  trim (Chat.effectiveText messageText seen) ≠ "" →
  Chat.isLoading seen = false →
  ∃ c, (Chat.handleSendMessage_begin now messageText seen st).2 = Some c ∧
       Chat.messages (Chat.handleSendMessage_begin now messageText seen st).1 =
         Chat.messages st ++
           [{| Chat.id := Number_toString now; Chat.role := Groq.user;
               Chat.content := trim (Chat.effectiveText messageText seen);
               Chat.timestamp := now |}].
Proof.
  intros Ht Hl. unfold Chat.handleSendMessage_begin. rewrite Hl.
  destruct (truthy_str _) eqn:E; [simpl; eauto|].
  by apply truthy_str_false in E.
Qed.

(** A well-formed context is parsed and greeted by its tickers. *)
Example context_parsed :
  Chat.parseContext {| Chat.context := Some appleContext; Chat.question := None |} =
    Some (JObj [("title", JStr "Apple beats estimates");
                ("tickers", JArr [JObj [("symbol", JStr "AAPL"); ("name", JStr "Apple")]])]) ∧
  Chat.content <$> Chat.messages
      (Chat.ChatScreen 0 {| Chat.context := Some appleContext; Chat.question := None |}).1 =
    ["Hi! I'm here to help you understand this article about Apple. What would you like to know?"].
Proof. split; reflexivity. Qed.

(** C10.  A [context] route parameter that [JSON.parse] rejects: the
    exception is caught, [articleContext] is undefined, and the screen
    mounts in exactly the state, and with the same initial question to send,
    as when no [context] parameter is given. *)
Theorem malformed_context_is_no_context
  (now : Z) (text : string) (q : option string) :
  JsonText.JSON_parse text = None →
  Chat.parseContext {| Chat.context := Some text; Chat.question := q |} = None ∧
  Chat.ChatScreen now {| Chat.context := Some text; Chat.question := q |} =
    Chat.ChatScreen now {| Chat.context := None; Chat.question := q |}.
Proof.
  intros Hbad.
  assert (Chat.parseContext {| Chat.context := Some text; Chat.question := q |} = None) as Hctx.
  { unfold Chat.parseContext; simpl. rewrite Hbad. by destruct (truthy_str text). }
  split; [done|].
  unfold Chat.ChatScreen, Chat.render. by rewrite Hctx.
Qed.

Lemma malformed_context_is_no_context_witness :
  Chat.parseContext {| Chat.context := Some "{title: AAPL beats"; Chat.question := Some "Why?" |}
    = None ∧
  Chat.ChatScreen 1700000000000
      {| Chat.context := Some "{title: AAPL beats"; Chat.question := Some "Why?" |} =
    Chat.ChatScreen 1700000000000 {| Chat.context := None; Chat.question := Some "Why?" |}.
Proof.
  apply (malformed_context_is_no_context 1700000000000 "{title: AAPL beats" (Some "Why?")).
  reflexivity.
Defined.

(** ** Feed pagers *)

(** *** The first page *)

Lemma topic_loadFirst (key : string) (resp : ArticlesResponse) (st : TopicFeed.State) :
  let st' := TopicFeed.loadFirst key (Resolved resp) st in
  TopicFeed.feed st' key = Data.articles resp ∧
  TopicFeed.hasMore st' !! key = Some (Data.has_next (Data.pagination resp)) ∧
  TopicFeed.page st' !! key = Some 1.
Proof.
  unfold TopicFeed.loadFirst, TopicFeed.feed; simpl.
  by rewrite !lookup_insert_eq.
Qed.

Lemma home_loadFirst (resp : ArticlesResponse) (st : HomeFeed.State) :
  let st' := HomeFeed.loadFirst (Resolved resp) st in
  HomeFeed.articles st' = Data.articles resp ∧
  HomeFeed.hasMore st' = Data.has_next (Data.pagination resp) ∧
  HomeFeed.page st' = 1.
Proof. done. Qed.

Lemma stock_loadFirst (resp : ArticlesResponse) (st : StockFeed.State) (s : string) :
  StockFeed.symbol st = Some s → s ≠ "" →
  let st' := StockFeed.loadFirst (Resolved resp) st in
  StockFeed.articles st' = Data.articles resp ∧
  StockFeed.hasMore st' = bool_decide (length (Data.articles resp) = 20%nat) ∧
  StockFeed.page st' = 1.
Proof.
  intros Hs Hne. unfold StockFeed.loadFirst, StockFeed.loadArticles_begin.
  rewrite Hs. assert (truthy_str s = true) as ->; [|done].
  unfold truthy_str. by apply bool_decide_eq_true.
Qed.

(** C2, as the code has it.  A successful page-1 load, whatever the state it
    starts from: on the two home feeds the list becomes the articles of the
    response, has-more becomes its [has_next] and the page counter 1; on the
    stock screen (a symbol being given) the list and the page counter are set
    likewise, and has-more is set to whether the response holds exactly 20
    articles. *)
Theorem loadFirst_replaces_feed
  (resp : ArticlesResponse) (key : string) (tst : TopicFeed.State)
  (hst : HomeFeed.State) (sst : StockFeed.State) (s : string) :
  StockFeed.symbol sst = Some s → s ≠ "" →
  (let st' := TopicFeed.loadFirst key (Resolved resp) tst in
   TopicFeed.feed st' key = Data.articles resp ∧
   TopicFeed.hasMore st' !! key = Some (Data.has_next (Data.pagination resp)) ∧
   TopicFeed.page st' !! key = Some 1) ∧
  (let st' := HomeFeed.loadFirst (Resolved resp) hst in
   HomeFeed.articles st' = Data.articles resp ∧
   HomeFeed.hasMore st' = Data.has_next (Data.pagination resp) ∧
   HomeFeed.page st' = 1) ∧
  (let st' := StockFeed.loadFirst (Resolved resp) sst in
   StockFeed.articles st' = Data.articles resp ∧
   StockFeed.hasMore st' = bool_decide (length (Data.articles resp) = 20%nat) ∧
   StockFeed.page st' = 1).
Proof.
  intros Hs Hne. split; [|split].
  - apply topic_loadFirst.
  - apply home_loadFirst.
  - by apply (stock_loadFirst resp sst s).
Qed.

Lemma loadFirst_replaces_feed_witness :
  let resp := pageOf [stub "a1"; stub "a2"] true in
  TopicFeed.feed (TopicFeed.loadFirst "for-you" (Resolved resp) TopicFeed.initial) "for-you"
    = [stub "a1"; stub "a2"] ∧
  HomeFeed.hasMore (HomeFeed.loadFirst (Resolved resp) HomeFeed.initial) = true ∧
  StockFeed.hasMore (StockFeed.loadFirst (Resolved resp) (StockFeed.initial (Some "AAPL")))
    = false.
Proof.
  destruct (loadFirst_replaces_feed (pageOf [stub "a1"; stub "a2"] true) "for-you"
              TopicFeed.initial HomeFeed.initial (StockFeed.initial (Some "AAPL")) "AAPL")
    as ((Ht & _ & _) & (_ & Hh & _) & (_ & Hs & _)).
  - reflexivity.
  - discriminate.
  - split; [exact Ht | split; [exact Hh | exact Hs]].
Defined.

(** The stock screen never reads [has_next]: a response that announces a
    further page but holds fewer than 20 articles (here none) leaves has-more
    false, and a full page that is announced to be the last leaves it true. *)
Lemma stock_hasMore_ignores_has_next :
  StockFeed.hasMore
    (StockFeed.loadFirst (Resolved (pageOf [] true)) (StockFeed.initial (Some "AAPL")))
    = false ∧
  StockFeed.hasMore
    (StockFeed.loadFirst
       (Resolved (pageOf (stubs 0 20) false))
       (StockFeed.initial (Some "AAPL")))
    = true.
Proof. split; reflexivity. Qed.

(** *** Further pages of the topic feed *)

Lemma ids_filter_subseteq (P : Article → Prop) `{∀ a, Decision (P a)}
  (l : list Article) (i : string) :
  i ∈ Data.ids (filter P l) → i ∈ Data.ids l.
Proof.
  unfold Data.ids. rewrite !list_elem_of_fmap.
  intros (a & -> & [_ Hin]%list_elem_of_filter). eauto.
Qed.

Lemma NoDup_ids_filter (P : Article → Prop) `{∀ a, Decision (P a)} (l : list Article) :
  NoDup (Data.ids l) → NoDup (Data.ids (filter P l)).
Proof.
  induction l as [|a l IH]; [done|].
  unfold Data.ids in *. rewrite fmap_cons, NoDup_cons. intros [Hnotin Hnd].
  rewrite filter_cons. destruct (decide (P a)); [|by apply IH].
  rewrite fmap_cons. apply NoDup_cons. split; [|by apply IH].
  intros Hin. apply Hnotin. by apply (ids_filter_subseteq P).
Qed.

Lemma NoDup_ids_dedup (existing incoming : list Article) :
  NoDup (Data.ids existing) → NoDup (Data.ids incoming) →
  NoDup (Data.ids (existing ++ TopicFeed.newUniqueArticles existing incoming)).
Proof.
  intros He Hi. unfold Data.ids. rewrite fmap_app.
  apply NoDup_app. split_and!; [done| |by apply NoDup_ids_filter].
  intros i Hin. unfold TopicFeed.newUniqueArticles.
  rewrite list_elem_of_fmap. intros (a & -> & [Hnew _]%list_elem_of_filter).
  by apply Hnew.
Qed.

Lemma length_new_known (existing incoming : list Article) :
  (length (TopicFeed.newUniqueArticles existing incoming)
     + length (known existing incoming) = length incoming)%nat.
Proof.
  unfold TopicFeed.newUniqueArticles, known.
  induction incoming as [|a l IH]; [done|].
  rewrite !filter_cons.
  destruct (decide (Data.id a ∈ Data.ids existing));
    destruct (decide (Data.id a ∉ Data.ids existing)); simpl; try lia; done.
Qed.

(** [handleLoadMore] never asks for page 1. *)
Lemma currentPage_succ_ne_1 (st : TopicFeed.State) (key : string) :
  TopicFeed.currentPage st key + 1 ≠ 1.
Proof.
  unfold TopicFeed.currentPage.
  destruct (TopicFeed.page st !! key) as [n|]; [|lia].
  destruct (n =? 0) eqn:E; lia.
Qed.

(** Every outcome of [handleLoadMore]: nothing, or a load of a later page
    of the selected tab that captured the current lists. *)
Lemma handleLoadMore_cases (st : TopicFeed.State) :
  TopicFeed.handleLoadMore st = (st, None) ∨
  ∃ key, selectedKey st = Some key ∧
    TopicFeed.loadingArticles st = false ∧
    TopicFeed.hasMorePages st key = true ∧
    TopicFeed.handleLoadMore st =
      (let '(st', p) := TopicFeed.loadArticlesForTopic_begin key
                          (TopicFeed.currentPage st key + 1) st in (st', Some p)).
Proof.
  unfold TopicFeed.handleLoadMore, selectedKey.
  destruct (bool_decide (TopicFeed.topics st ≠ [])); simpl; [|by left].
  destruct (TopicFeed.loadingArticles st); simpl; [by left|].
  destruct (TopicFeed.topics st !! TopicFeed.selectedTopicIndex st) as [t|]; [|by left].
  destruct (TopicFeed.hasMorePages st (TopicFeed.id t)) eqn:E; [|by left].
  right. exists (TopicFeed.id t). done.
Qed.

Lemma handleLoadMore_runs (st : TopicFeed.State) (key : string) :
  selectedKey st = Some key →
  TopicFeed.loadingArticles st = false →
  TopicFeed.hasMorePages st key = true →
  TopicFeed.handleLoadMore st =
    (let '(st', p) := TopicFeed.loadArticlesForTopic_begin key
                        (TopicFeed.currentPage st key + 1) st in (st', Some p)).
Proof.
  unfold TopicFeed.handleLoadMore, selectedKey. intros Hsel Hl Hm.
  destruct (TopicFeed.topics st !! TopicFeed.selectedTopicIndex st) as [t|] eqn:Ht;
    simplify_eq/=.
  assert (TopicFeed.topics st ≠ []) as Hne by (intros E; by rewrite E in Ht).
  rewrite bool_decide_true by done. rewrite Hl, Hm. done.
Qed.

(** One further page, when the handler lets it through: the list grows by
    the incoming articles that are not yet known, in the order of the page. *)
Lemma loadNext_feed (st : TopicFeed.State) (key : string) (resp : ArticlesResponse) :
  selectedKey st = Some key →
  TopicFeed.loadingArticles st = false →
  TopicFeed.hasMorePages st key = true →
  TopicFeed.feed (TopicFeed.loadNext (Resolved resp) st) key =
    TopicFeed.feed st key
      ++ TopicFeed.newUniqueArticles (TopicFeed.feed st key) (Data.articles resp).
Proof.
  intros Hsel Hl Hm. unfold TopicFeed.loadNext.
  rewrite (handleLoadMore_runs st key Hsel Hl Hm). simpl.
  unfold TopicFeed.feed at 1; simpl. rewrite lookup_insert_eq; simpl.
  unfold TopicFeed.newArticles; simpl.
  destruct (TopicFeed.currentPage st key + 1 =? 1) eqn:E.
  - apply Z.eqb_eq in E. by apply currentPage_succ_ne_1 in E.
  - done.
Qed.

Lemma loadNext_selectedKey (o : Outcome ArticlesResponse) (st : TopicFeed.State) :
  selectedKey (TopicFeed.loadNext o st) = selectedKey st.
Proof.
  unfold TopicFeed.loadNext.
  destruct (handleLoadMore_cases st) as [->|(key & _ & _ & _ & ->)]; [done|].
  by destruct o.
Qed.

(** One [loadNext], whatever it does, keeps the ids of every key distinct. *)
Lemma loadNext_NoDup (o : Outcome ArticlesResponse) (st : TopicFeed.State) (k : string) :
  distinctIds o →
  NoDup (Data.ids (TopicFeed.feed st k)) →
  NoDup (Data.ids (TopicFeed.feed (TopicFeed.loadNext o st) k)).
Proof.
  intros Ho Hnd. unfold TopicFeed.loadNext.
  destruct (handleLoadMore_cases st) as [->|(key & Hsel & Hl & Hm & ->)]; [done|].
  destruct o as [resp|e]; [|done]. simpl.
  unfold TopicFeed.feed at 1; simpl.
  destruct (decide (key = k)) as [->|Hne].
  - rewrite lookup_insert_eq; simpl. unfold TopicFeed.newArticles; simpl.
    destruct (TopicFeed.currentPage st k + 1 =? 1) eqn:E.
    + apply Z.eqb_eq in E. by apply currentPage_succ_ne_1 in E.
    + by apply NoDup_ids_dedup.
  - by rewrite lookup_insert_ne.
Qed.

Lemma loadNexts_NoDup (os : list (Outcome ArticlesResponse)) (st : TopicFeed.State)
  (k : string) :
  Forall distinctIds os →
  NoDup (Data.ids (TopicFeed.feed st k)) →
  NoDup (Data.ids (TopicFeed.feed (TopicFeed.loadNexts os st) k)).
Proof.
  unfold TopicFeed.loadNexts. intros Hos. revert st.
  induction Hos as [|o os Ho Hos IH]; intros st Hnd; [done|].
  simpl. apply IH. by apply loadNext_NoDup.
Qed.

(** C1, as the code has it.  On the topic-tabbed home feed, for the key of
    the selected tab: a further page is appended after dropping every
    incoming article whose id is already in the accumulated list.  Hence, the
    accumulated list and each incoming page being free of repeated ids, the
    list stays free of repeated ids through any sequence of [loadNext]
    calls; and a list of 20 articles that receives a page of 20 of which 5
    are already known has exactly 35 entries. *)
Theorem loadNext_drops_known_articles
  (st : TopicFeed.State) (key : string) (os : list (Outcome ArticlesResponse))
  (resp : ArticlesResponse) :
  selectedKey st = Some key →
  NoDup (Data.ids (TopicFeed.feed st key)) →
  Forall distinctIds os →
  NoDup (Data.ids (TopicFeed.feed (TopicFeed.loadNexts os st) key)) ∧
  (TopicFeed.loadingArticles st = false → TopicFeed.hasMorePages st key = true →
   TopicFeed.feed (TopicFeed.loadNext (Resolved resp) st) key =
     TopicFeed.feed st key
       ++ filter (λ a, Data.id a ∉ Data.ids (TopicFeed.feed st key)) (Data.articles resp) ∧
   (length (TopicFeed.feed st key) = 20%nat →
    length (Data.articles resp) = 20%nat →
    length (known (TopicFeed.feed st key) (Data.articles resp)) = 5%nat →
    length (TopicFeed.feed (TopicFeed.loadNext (Resolved resp) st) key) = 35%nat)).
Proof.
  intros Hsel Hnd Hos. split; [by apply loadNexts_NoDup|].
  intros Hl Hm. rewrite (loadNext_feed st key resp Hsel Hl Hm). split; [done|].
  intros H20 H20' H5. rewrite length_app.
  pose proof (length_new_known (TopicFeed.feed st key) (Data.articles resp)). lia.
Qed.

Lemma loadNext_drops_known_articles_witness :
  NoDup (Data.ids (TopicFeed.feed
    (TopicFeed.loadNexts [Resolved (pageOf (stubs 15 20) true)] firstPageShown) "for-you")) ∧
  length (TopicFeed.feed
    (TopicFeed.loadNext (Resolved (pageOf (stubs 15 20) true)) firstPageShown) "for-you")
    = 35%nat.
Proof.
  destruct (loadNext_drops_known_articles firstPageShown "for-you"
              [Resolved (pageOf (stubs 15 20) true)] (pageOf (stubs 15 20) true))
    as [Hnd Hstep].
  - reflexivity.
  - apply (bool_decide_unpack _). vm_compute. exact I.
  - constructor; [|constructor]. apply (bool_decide_unpack _). vm_compute. exact I.
  - split; [exact Hnd|].
    destruct Hstep as [_ Hlen]; [reflexivity | reflexivity |].
    apply Hlen; reflexivity.
Defined.

(** Two ways to the same id twice.  The searchable home screen appends a
    further page as it comes: the page [a1] after the page [a1] gives
    [a1; a1].  The topic feed compares an incoming article with the
    accumulated list only, not with the rest of its own page. *)
Lemma repeated_ids_reachable :
  Data.ids (HomeFeed.articles
    (HomeFeed.loadNext (Resolved (pageOf [stub "a1"] true))
       (HomeFeed.loadFirst (Resolved (pageOf [stub "a1"] true)) HomeFeed.initial)))
    = ["a1"; "a1"] ∧
  Data.ids (TopicFeed.feed
    (TopicFeed.loadNext (Resolved (pageOf [stub "a20"; stub "a20"] true)) firstPageShown)
    "for-you")
    = Data.ids (stubs 0 20) ++ ["a20"; "a20"].
Proof. split; reflexivity. Qed.

(** *** Calls that must not load *)


Lemma handleLoadMore_exhausted (st : TopicFeed.State) (t : TopicFeed.Topic) :
  TopicFeed.topics st !! TopicFeed.selectedTopicIndex st = Some t →
  TopicFeed.hasMore st !! TopicFeed.id t = Some false →
  TopicFeed.handleLoadMore st = (st, None).
Proof.
  intros Ht Hm. unfold TopicFeed.handleLoadMore, TopicFeed.hasMorePages.
  rewrite Ht, Hm. simpl. by destruct (_ && _).
Qed.





(** In general [handleSwipedAll] has no guard at all. *)
Lemma handleSwipedAll_loads (st : SwipeDeck.State) :
  (SwipeDeck.handleSwipedAll st).2 = Some (Api.getArticles (pageParams (SwipeDeck.page st + 1))).
Proof. done. Qed.

(** *** Debounced search *)

Lemma keystroke_mounted (st : HomeFeed.State) (t : Z) (txt : string) :
  0 ≤ t →
  HomeFeed.keystroke t txt (HomeFeed.mounted st) = typed st 1 t txt.
Proof.
  intros Ht. unfold HomeFeed.keystroke, HomeFeed.advance, HomeFeed.handleSearch, typed; simpl.
  rewrite Z.max_l by done.
  by destruct (HomeFeed.searchTimer st) as [i|]; [destruct (i =? 0)|].
Qed.

(** A keystroke before the pending timer is due cancels it and sets the
    next one. *)
Lemma keystroke_typed (st : HomeFeed.State) (n t t' : Z) (txt txt' : string) :
  0 < n → t ≤ t' < t + 500 →
  HomeFeed.keystroke t' txt' (typed st n t txt) = typed st (n + 1) t' txt'.
Proof.
  intros Hn Ht. unfold HomeFeed.keystroke, HomeFeed.advance, HomeFeed.handleSearch, typed; simpl.
  rewrite !filter_cons, !filter_nil. decide_bounds.
  rewrite Z.max_l by lia.
  destruct (n =? 0) eqn:E; [lia|].
  unfold HomeFeed.clearTimeout. rewrite filter_cons, filter_nil; simpl.
  case_decide; done.
Qed.

Lemma last_cons {A} (a d : A) (l : list A) : List.last (a :: l) d = List.last l a.
Proof.
  revert a d. induction l as [|b l IH]; intros a d; [done|].
  change (List.last (a :: b :: l) d) with (List.last (b :: l) d).
  by rewrite !IH.
Qed.

Lemma type_typed (keys : list (Z * string)) (st : HomeFeed.State) (n t : Z) (txt : string) :
  0 < n → burst t keys →
  HomeFeed.type keys (typed st n t txt) =
    typed st (n + Z.of_nat (length keys)) (List.last keys.*1 t) (List.last keys.*2 txt).
Proof.
  unfold HomeFeed.type. revert n t txt.
  induction keys as [|[t' txt'] keys IH]; intros n t txt Hn Hb.
  - simpl. by rewrite Z.add_0_r.
  - destruct Hb as [Ht Hb]. cbn [fst] in Ht, Hb.
    cbn [foldl fst snd]. rewrite keystroke_typed by done. rewrite IH by (done || lia).
    rewrite !fmap_cons, !last_cons. cbn [length fst snd]. f_equal. lia.
Qed.

(** Until the timer is due nothing is requested. *)
Lemma advance_typed_early (st : HomeFeed.State) (n t T : Z) (txt : string) :
  T < t + 500 →
  HomeFeed.issued (HomeFeed.advance T (typed st n t txt)) = [].
Proof.
  intros HT. unfold HomeFeed.advance, typed; simpl.
  rewrite !filter_cons, !filter_nil. decide_bounds; done.
Qed.

(** Once it is due, page 1 is requested for the text of the last keystroke,
    at the time the timer was set for, and no timer is left. *)
Lemma advance_typed_due (st : HomeFeed.State) (n t T : Z) (txt : string) :
  t + 500 ≤ T →
  HomeFeed.issued (HomeFeed.advance T (typed st n t txt)) = [burstRequest t txt] ∧
  HomeFeed.timers (HomeFeed.advance T (typed st n t txt)) = [].
Proof.
  intros HT. unfold HomeFeed.advance, typed; simpl.
  rewrite !filter_cons, !filter_nil. decide_bounds; done.
Qed.

(** Any burst of keystrokes leads to one request, for the last text, 500 ms
    after the last keystroke. *)
Lemma debounce_general (st : HomeFeed.State) (t : Z) (txt : string)
  (keys : list (Z * string)) (T : Z) :
  0 ≤ t → burst t keys →
  let w := HomeFeed.type ((t, txt) :: keys) (HomeFeed.mounted st) in
  let t_last := List.last keys.*1 t in
  let txt_last := List.last keys.*2 txt in
  HomeFeed.issued w = [] ∧
  (T < t_last + 500 → HomeFeed.issued (HomeFeed.advance T w) = []) ∧
  (t_last + 500 ≤ T →
     HomeFeed.issued (HomeFeed.advance T w) = [burstRequest t_last txt_last] ∧
     HomeFeed.timers (HomeFeed.advance T w) = []).
Proof.
  intros Ht Hb w t_last txt_last.
  assert (w = typed st (1 + Z.of_nat (length keys)) t_last txt_last) as ->.
  { unfold w, HomeFeed.type. cbn [foldl fst snd].
    rewrite keystroke_mounted by done. by apply type_typed. }
  split_and!; [done| |].
  - apply advance_typed_early.
  - apply advance_typed_due.
Qed.

(** C8.  Keystrokes at 0, 100, 200 and 300 ms into the search box, with the
    delay of 500 ms: while the user types nothing is requested; nothing is
    requested before 800 ms; and from 800 ms on exactly one request has been
    issued, at 800 ms, for page 1 with the text of the last keystroke, and
    no timer is left. *)
Theorem debounced_search_fires_once
  (st : HomeFeed.State) (a b c d : string) (T T' : Z) :
  T' < 800 → 800 ≤ T →
  let w := HomeFeed.type [(0, a); (100, b); (200, c); (300, d)] (HomeFeed.mounted st) in
  HomeFeed.issued w = [] ∧
  HomeFeed.issued (HomeFeed.advance T' w) = [] ∧
  HomeFeed.issued (HomeFeed.advance T w) =
    [{| HomeFeed.flight_id := 0; HomeFeed.issued_at := 800; HomeFeed.pageNum := 1;
        HomeFeed.search := d;
        HomeFeed.request := Api.getArticles
          [("page", Some (Api.PNum 1)); ("per_page", Some (Api.PNum 20));
           ("search", HomeFeed.searchParam d)] |}] ∧
  HomeFeed.timers (HomeFeed.advance T w) = [].
Proof.
  intros HT' HT w.
  assert (w = typed st 4 300 d) as ->.
  { unfold w, HomeFeed.type. cbn [foldl fst snd].
    rewrite keystroke_mounted by done.
    rewrite !keystroke_typed by lia. reflexivity. }
  split_and!.
  - reflexivity.
  - apply advance_typed_early. lia.
  - destruct (advance_typed_due st 4 300 T d) as [-> _]; [lia|]. reflexivity.
  - destruct (advance_typed_due st 4 300 T d) as [_ ->]; [lia|]. reflexivity.
Qed.

Lemma debounced_search_fires_once_witness :
  let w := HomeFeed.type [(0, "a"); (100, "aa"); (200, "aap"); (300, "aapl")]
             (HomeFeed.mounted HomeFeed.initial) in
  HomeFeed.issued (HomeFeed.advance 799 w) = [] ∧
  (λ f, (HomeFeed.issued_at f, HomeFeed.pageNum f, HomeFeed.search f))
    <$> HomeFeed.issued (HomeFeed.advance 1000 w) = [(800, 1, "aapl")].
Proof.
  destruct (debounced_search_fires_once HomeFeed.initial "a" "aa" "aap" "aapl" 1000 799)
    as (_ & Hearly & Hdue & _).
  - reflexivity.
  - discriminate.
  - split; [exact Hearly | rewrite Hdue; reflexivity].
Defined.

(** *** Responses that arrive out of order *)

Lemma filter_other_flight (i j : nat) (l : list HomeFeed.Flight) :
  i ≠ j →
  filter (λ f, HomeFeed.flight_id f = j) (filter (λ f, HomeFeed.flight_id f ≠ i) l)
    = filter (λ f, HomeFeed.flight_id f = j) l.
Proof.
  intros Hne. induction l as [|f l IH]; [done|].
  rewrite !filter_cons.
  destruct (decide (HomeFeed.flight_id f ≠ i)) as [Hi|Hi].
  - rewrite filter_cons. by rewrite IH.
  - rewrite IH. rewrite decide_False; [done|].
    intros Hj. apply Hi. congruence.
Qed.

Lemma awaited_deliver (i j : nat) (o : Outcome ArticlesResponse) (w : HomeFeed.World) :
  i ≠ j → HomeFeed.awaited j (HomeFeed.deliver i o w) = HomeFeed.awaited j w.
Proof.
  intros Hne. unfold HomeFeed.deliver.
  destruct (HomeFeed.awaited i w); [|done].
  unfold HomeFeed.awaited; simpl. by rewrite filter_other_flight.
Qed.

Lemma deliver_first_page (i : nat) (f : HomeFeed.Flight) (r : ArticlesResponse)
  (w : HomeFeed.World) :
  HomeFeed.awaited i w = Some f → HomeFeed.pageNum f = 1 →
  let st' := HomeFeed.screen (HomeFeed.deliver i (Resolved r) w) in
  HomeFeed.articles st' = Data.articles r ∧
  HomeFeed.hasMore st' = Data.has_next (Data.pagination r) ∧
  HomeFeed.page st' = 1.
Proof.
  intros Ha Hp. unfold HomeFeed.deliver. rewrite Ha; simpl. by rewrite Hp.
Qed.

(** C5, as the code has it.  The screen keeps no order of its requests: of
    two page-1 requests that are both awaited, whichever was issued first,
    the response that arrives last is the one the feed shows afterwards (its
    articles, its [has_next], page 1). *)
Theorem last_arrival_wins
  (w : HomeFeed.World) (i j : nat) (fi fj : HomeFeed.Flight) (ri rj : ArticlesResponse) :
  i ≠ j →
  HomeFeed.awaited i w = Some fi → HomeFeed.pageNum fi = 1 →
  HomeFeed.awaited j w = Some fj → HomeFeed.pageNum fj = 1 →
  let st' := HomeFeed.screen
               (HomeFeed.deliver j (Resolved rj) (HomeFeed.deliver i (Resolved ri) w)) in
  HomeFeed.articles st' = Data.articles rj ∧
  HomeFeed.hasMore st' = Data.has_next (Data.pagination rj) ∧
  HomeFeed.page st' = 1.
Proof.
  intros Hne Hi Hpi Hj Hpj.
  apply (deliver_first_page j fj); [|done].
  by rewrite awaited_deliver.
Qed.

Lemma last_arrival_wins_witness :
  let st' := HomeFeed.screen
               (HomeFeed.deliver 2 (Resolved (pageOf [stub "a1"] false))
                  (HomeFeed.deliver 3 (Resolved (pageOf [stub "ab1"] false)) twoSearches)) in
  run searchTrace opened = Some twoSearches ∧
  HomeFeed.articles st' = [stub "a1"] ∧
  HomeFeed.hasMore st' = false ∧
  HomeFeed.page st' = 1.
Proof.
  split; [vm_compute; reflexivity|].
  apply (last_arrival_wins twoSearches 3 2
           {| HomeFeed.flight_id := 3; HomeFeed.issued_at := 3500; HomeFeed.pageNum := 1;
              HomeFeed.search := "ab";
              HomeFeed.request := HomeFeed.loadArticles_request 1 "ab" |}
           {| HomeFeed.flight_id := 2; HomeFeed.issued_at := 2500; HomeFeed.pageNum := 1;
              HomeFeed.search := "a";
              HomeFeed.request := HomeFeed.loadArticles_request 1 "a" |}).
  - discriminate.
  - vm_compute; reflexivity.
  - reflexivity.
  - vm_compute; reflexivity.
  - reflexivity.
Defined.

(** The stale response is applied, in a session the screen can go through
    ([run] accepts every event of it: the search box is drawn at each
    keystroke).  The search for a is issued at 2500 ms and the search for ab
    at 3500 ms; the response for ab arrives first and the response for a
    after it: the feed ends up showing the articles found for a, although ab
    is the latest request and the text of the search box. *)
Lemma stale_response_applied :
  let w := HomeFeed.deliver 2 (Resolved (pageOf [stub "a1"] false))
             (HomeFeed.deliver 3 (Resolved (pageOf [stub "ab1"] false)) twoSearches) in
  run (searchTrace ++ [Arrived 3 (Resolved (pageOf [stub "ab1"] false));
                       Arrived 2 (Resolved (pageOf [stub "a1"] false))]) opened = Some w ∧
  (λ f, (HomeFeed.flight_id f, HomeFeed.issued_at f, HomeFeed.pageNum f, HomeFeed.search f))
    <$> HomeFeed.issued w
    = [(0%nat, 0, 1, ""); (1%nat, 1000, 2, ""); (2%nat, 2500, 1, "a"); (3%nat, 3500, 1, "ab")] ∧
  HomeFeed.pending w = [] ∧
  HomeFeed.searchQuery (HomeFeed.screen w) = "ab" ∧
  Data.ids (HomeFeed.articles (HomeFeed.screen w)) = ["a1"].
Proof. vm_compute. repeat split. Qed.

(** * Further properties of the code *)

(** ** Gateway: responses other than 401 *)

Lemma handleResponse_keeps_world (env : Api.Env) (r : Api.Response) (w : Api.World) :
  Api.status r ≠ 401 → (Api.handleResponse env r w).2 = w.
Proof.
  intros Hs. unfold Api.handleResponse.
  destruct (Api.status r =? 401) eqn:E; [apply Z.eqb_eq in E; done|].
  destruct (negb (Api.ok r)).
  - by destruct (prop _ _).
  - by destruct (Api.json r).
Qed.

(** Only a 401, or a [register] or [login], changes the token or the stored
    items: any other operation, whether its request gets no response or a
    response with another status, leaves both as they were. *)
Theorem only_401_touches_tokens (env : Api.Env) (op : Api.Op) (w : Api.World) :
  isAuthOp op = false →
  (∀ r, Api.fetch env (Api.request_of env op w) = Api.Got r → Api.status r ≠ 401) →
  (Api.call env op w).2 = w.
Proof.
  intros Hop Hst. unfold Api.call.
  destruct (Api.fetch env (Api.request_of env op w)) as [r|] eqn:Hf; [|done].
  pose proof (handleResponse_keeps_world env r w (Hst r eq_refl)) as Hw.
  destruct (Api.handleResponse env r w) as [[data|e] w1]; simpl in Hw; subst w1; [|done].
  by destruct op.
Qed.

Lemma only_401_touches_tokens_witness :
  (Api.call failingEnv Api.getFollowedTickers signedIn).2 = signedIn.
Proof.
  apply (only_401_touches_tokens failingEnv Api.getFollowedTickers signedIn).
  - reflexivity.
  - intros r Hr. injection Hr as <-. discriminate.
Defined.

(** The error of a failed request (status neither 2xx nor 401): the [error]
    member of the body when it is a non-empty string; Request failed when
    the body is not JSON or is an object without a truthy [error]; and a
    TypeError, not a request error, when the body is the JSON value null. *)
Theorem failed_response_message
  (env : Api.Env) (r : Api.Response) (w : Api.World) :
  Api.status r ≠ 401 → Api.ok r = false →
  (Api.json r = None →
     Api.handleResponse env r w = (Rejected (Error (JStr "Request failed")), w)) ∧
  (∀ ms m, Api.json r = Some (JObj ms) → member "error" ms = Some (JStr m) → m ≠ "" →
     Api.handleResponse env r w = (Rejected (Error (JStr m)), w)) ∧
  (∀ ms, Api.json r = Some (JObj ms) → truthy (member "error" ms) = false →
     Api.handleResponse env r w = (Rejected (Error (JStr "Request failed")), w)) ∧
  (Api.json r = Some JNull →
     Api.handleResponse env r w = (Rejected TypeError, w)).
Proof.
  intros Hs Hok. unfold Api.handleResponse.
  destruct (Api.status r =? 401) eqn:E; [apply Z.eqb_eq in E; done|].
  rewrite Hok; simpl. split_and!.
  - by intros ->.
  - intros ms m -> Hm Hne; simpl. rewrite Hm; simpl.
    unfold truthy_str. by rewrite bool_decide_true.
  - intros ms -> Hf; simpl. by rewrite Hf.
  - by intros ->.
Qed.

Lemma failed_response_message_witness :
  Api.handleResponse failingEnv
    {| Api.status := 500; Api.json := Some (JObj [("error", JStr "Database down")]) |}
    signedIn =
    (Rejected (Error (JStr "Database down")), signedIn).
Proof.
  destruct (failed_response_message failingEnv
              {| Api.status := 500; Api.json := Some (JObj [("error", JStr "Database down")]) |}
              signedIn) as (_ & H & _).
  - discriminate.
  - reflexivity.
  - apply (H [("error", JStr "Database down")] "Database down");
      [reflexivity | reflexivity | discriminate].
Defined.

(** ** Gateway: the session *)

Lemma ok_not_401 (r : Api.Response) : Api.ok r = true → Api.status r ≠ 401.
Proof. unfold Api.ok. intros H Hs. rewrite Hs in H. done. Qed.

Lemma handleResponse_ok (env : Api.Env) (r : Api.Response) (w : Api.World) (data : Json) :
  Api.ok r = true → Api.json r = Some data →
  Api.handleResponse env r w = (Resolved data, w).
Proof.
  intros Hok Hj. unfold Api.handleResponse.
  destruct (Api.status r =? 401) eqn:E;
    [apply Z.eqb_eq in E; by apply ok_not_401 in Hok|].
  by rewrite Hok, Hj.
Qed.

Lemma getHeaders_token (w : Api.World) (t : string) :
  Api.token w = Some t → t ≠ "" →
  Api.getHeaders true w =
    [("Content-Type", "application/json"); ("Authorization", "Bearer " +:+ t)].
Proof.
  intros Ht Hne. unfold Api.getHeaders. rewrite Ht; simpl.
  unfold truthy_str. by rewrite bool_decide_true.
Qed.

(** A [register] or [login] whose response is a 2xx with a non-empty
    [access_token] and a [refresh_token], the storage accepting both: the
    call resolves with the body, the access token is in memory, both tokens
    are stored, and every operation that authenticates sends the access token
    as its bearer from then on. *)
Theorem login_stores_session
  (env : Api.Env) (op : Api.Op) (w : Api.World) (r : Api.Response)
  (data : Json) (a rt : string) :
  isAuthOp op = true →
  Api.fetch env (Api.request_of env op w) = Api.Got r →
  Api.ok r = true → Api.json r = Some data →
  prop data "access_token" = Some (Some (JStr a)) → a ≠ "" →
  prop data "refresh_token" = Some (Some (JStr rt)) →
  Api.rejects env (Api.SetItem "access_token" a) = false →
  Api.rejects env (Api.SetItem "refresh_token" rt) = false →
  (Api.call env op w).1 = Resolved data ∧
  Api.token (Api.call env op w).2 = Some a ∧
  Api.items (Api.call env op w).2 !! "access_token" = Some a ∧
  Api.items (Api.call env op w).2 !! "refresh_token" = Some rt ∧
  ∀ op', Api.includeAuth_of op' = true →
    Api.headers (Api.request_of env op' (Api.call env op w).2) =
      [("Content-Type", "application/json"); ("Authorization", "Bearer " +:+ a)].
Proof.
  intros Hop Hf Hok Hj Ha Hne Hrt Hsa Hsr.
  assert (Api.call env op w =
            (Resolved data,
             {| Api.token := Some a;
                Api.items := <["refresh_token" := rt]> (<["access_token" := a]> (Api.items w)) |}))
    as ->.
  { unfold Api.call. rewrite Hf, (handleResponse_ok env r w data Hok Hj).
    assert (Api.storeSession env data w =
              (Resolved data,
               {| Api.token := Some a;
                  Api.items := <["refresh_token" := rt]> (<["access_token" := a]> (Api.items w)) |}))
      as Hst.
    { unfold Api.storeSession. rewrite Ha; simpl.
      unfold truthy_str at 1. rewrite bool_decide_true by done.
      rewrite Hrt. unfold Api.saveToken, Api.AsyncStorage_setItem. rewrite Hsa; simpl.
      by rewrite Hsr. }
    by destruct op. }
  simpl. split_and!; [done | done | | | ].
  - rewrite lookup_insert_ne by done. by rewrite lookup_insert_eq.
  - by rewrite lookup_insert_eq.
  - intros op' Hauth. unfold Api.request_of; simpl. rewrite Hauth.
    by apply getHeaders_token.
Qed.

Lemma login_stores_session_witness :
  (Api.call welcomingEnv (Api.login "ada@example.com" "secret") signedOut).1
    = Resolved sessionBody ∧
  Api.token (Api.call welcomingEnv (Api.login "ada@example.com" "secret") signedOut).2
    = Some "abc" ∧
  Api.items (Api.call welcomingEnv (Api.login "ada@example.com" "secret") signedOut).2
    !! "refresh_token" = Some "def".
Proof.
  destruct (login_stores_session welcomingEnv (Api.login "ada@example.com" "secret")
              signedOut {| Api.status := 200; Api.json := Some sessionBody |}
              sessionBody "abc" "def") as (H1 & H2 & _ & H4 & _);
    [reflexivity | reflexivity | reflexivity | reflexivity | reflexivity
    | discriminate | reflexivity | reflexivity | reflexivity |].
  split; [exact H1 | split; [exact H2 | exact H4]].
Defined.

(** A [register] or [login] answered by a 2xx whose body carries no truthy
    [access_token] still resolves with the body, and neither the token nor
    the stored items change. *)
Theorem login_without_token_stores_nothing
  (env : Api.Env) (op : Api.Op) (w : Api.World) (r : Api.Response)
  (data : Json) (a : option Json) :
  Api.fetch env (Api.request_of env op w) = Api.Got r →
  Api.ok r = true → Api.json r = Some data →
  prop data "access_token" = Some a → truthy a = false →
  Api.call env op w = (Resolved data, w).
Proof.
  intros Hf Hok Hj Ha Hfalse. unfold Api.call.
  rewrite Hf, (handleResponse_ok env r w data Hok Hj).
  assert (Api.storeSession env data w = (Resolved data, w)) as Hst.
  { unfold Api.storeSession. by rewrite Ha, Hfalse. }
  by destruct op.
Qed.

Lemma login_without_token_stores_nothing_witness :
  Api.call
    {| Api.API_BASE_URL := "https://api.sensybull.com";
       Api.fetch := λ _, Api.Got {| Api.status := 201;
                                    Api.json := Some (JObj [("message", JStr "verify your email")]) |};
       Api.rejects := λ _, false |}
    (Api.register "Ada" "ada@example.com" "secret") signedOut
  = (Resolved (JObj [("message", JStr "verify your email")]), signedOut).
Proof.
  apply (login_without_token_stores_nothing _ _ _
           {| Api.status := 201; Api.json := Some (JObj [("message", JStr "verify your email")]) |}
           _ None); reflexivity.
Defined.

(** Which requests carry an Authorization header: those of the operations
    that authenticate (all but [register] and [login]) when a non-empty token
    is in memory, and then it is Bearer followed by that token.  A
    [register] or [login] never sends the token, and an empty token is not
    sent. *)
Theorem authorization_header_iff
  (env : Api.Env) (op : Api.Op) (w : Api.World) (v : string) :
  ("Authorization", v) ∈ Api.headers (Api.request_of env op w) ↔
  isAuthOp op = false ∧ ∃ t, Api.token w = Some t ∧ t ≠ "" ∧ v = "Bearer " +:+ t.
Proof.
  assert (Api.includeAuth_of op = negb (isAuthOp op)) as Hinc by (by destruct op).
  unfold Api.request_of; simpl. unfold Api.getHeaders. rewrite Hinc.
  rewrite elem_of_cons. split.
  - intros [Habs|Hin]; [done|].
    destruct (Api.token w) as [t|]; [|by apply elem_of_nil in Hin].
    destruct (isAuthOp op); simpl in Hin; [by apply elem_of_nil in Hin|].
    destruct (truthy_str t) eqn:E; [|by apply elem_of_nil in Hin].
    apply list_elem_of_singleton in Hin. simplify_eq.
    split; [done|]. exists t. split_and!; [done | | done].
    intros ->. done.
  - intros (Hop & t & Ht & Hne & ->). right. rewrite Ht, Hop; simpl.
    unfold truthy_str. rewrite bool_decide_true by done. apply list_elem_of_singleton. done.
Qed.

(** The access token survives a restart and a logout does not: a process
    that starts after [saveToken] reads the saved token back, one that starts
    after [clearToken] finds none (the storage carrying out the calls). *)
Theorem token_survives_restart (env : Api.Env) (w : Api.World) (t : string) :
  Api.rejects env (Api.SetItem "access_token" t) = false →
  Api.rejects env (Api.GetItem "access_token") = false →
  storageWorks env →
  Api.token (restart env (Api.saveToken env t w)) = Some t ∧
  Api.token (restart env (Api.logout env (Api.saveToken env t w))) = None.
Proof.
  intros Hset Hget [Hr1 Hr2].
  unfold restart, Api.logout, Api.loadToken, Api.clearToken, Api.saveToken,
    Api.AsyncStorage_getItem, Api.AsyncStorage_setItem, Api.AsyncStorage_removeItem.
  rewrite Hset, Hget, Hr1, Hr2; simpl. split.
  - by rewrite lookup_insert_eq.
  - rewrite lookup_delete_ne by done. by rewrite lookup_delete_eq.
Qed.

Lemma token_survives_restart_witness :
  Api.token (restart welcomingEnv (Api.saveToken welcomingEnv "abc" signedOut)) = Some "abc" ∧
  Api.token (restart welcomingEnv
               (Api.logout welcomingEnv (Api.saveToken welcomingEnv "abc" signedOut))) = None.
Proof.
  apply (token_survives_restart welcomingEnv signedOut "abc");
    [reflexivity | reflexivity | split; reflexivity].
Defined.

(** ** Gateway: what user text can do to a URL *)

Lemma chars_app (s1 s2 : string) : chars (s1 +:+ s2) = chars s1 ++ chars s2.
Proof. induction s1 as [|c s1 IH]; simpl; [done|]. by rewrite IH. Qed.

Lemma uri_char_safe (c : ascii) :
  Forall (λ x, separator x = false ∧ x ≠ "+"%char) (chars (Api.uri_char c)).
Proof.
  destruct c as [[] [] [] [] [] [] [] []]; vm_compute; repeat constructor; discriminate.
Qed.

Lemma form_char_safe (c : ascii) :
  Forall (λ x, separator x = false) (chars (Api.form_char c)).
Proof.
  destruct c as [[] [] [] [] [] [] [] []]; vm_compute; repeat constructor.
Qed.

(** Text typed by the user cannot restructure a request URL where it is
    encoded: the encoded query of [searchTickers] and the encoded name of
    [getTopicByName] contain none of the characters & = ? # / and no space or
    plus sign, and an encoded name or value of the query of [getArticles] and
    [getAllTopics] contains none of & = ? # / and no space. *)
Theorem encoded_text_has_no_separator (s : string) :
  Forall (λ x, separator x = false ∧ x ≠ "+"%char) (chars (Api.encodeURIComponent s)) ∧
  Forall (λ x, separator x = false) (chars (Api.form_encode s)).
Proof.
  split.
  - induction s as [|c s IH]; simpl; [constructor|].
    rewrite chars_app. apply Forall_app. split; [apply uri_char_safe | done].
  - induction s as [|c s IH]; simpl; [constructor|].
    rewrite chars_app. apply Forall_app. split; [apply form_char_safe | done].
Qed.

Lemma toUpperCase_char_idemp (c : ascii) :
  toUpperCase_char (toUpperCase_char c) = toUpperCase_char c.
Proof. by destruct c as [[] [] [] [] [] [] [] []]. Qed.

Lemma toUpperCase_idemp (s : string) : toUpperCase (toUpperCase s) = toUpperCase s.
Proof.
  induction s as [|c s IH]; simpl; [done|].
  by rewrite toUpperCase_char_idemp, IH.
Qed.

(** [getTicker], [followTicker] and [unfollowTicker] do not tell the cases of
    their argument apart: two symbols that differ in case only, such as a
    symbol and its upper-case form, give the same request URL. *)
Theorem ticker_requests_ignore_case (env : Api.Env) (s1 s2 : string) :
  toUpperCase s1 = toUpperCase s2 →
  Api.url_of env (Api.getTicker s1) = Api.url_of env (Api.getTicker s2) ∧
  Api.url_of env (Api.followTicker s1) = Api.url_of env (Api.followTicker s2) ∧
  Api.url_of env (Api.unfollowTicker s1) = Api.url_of env (Api.unfollowTicker s2) ∧
  Api.url_of env (Api.followTicker (toUpperCase s1)) = Api.url_of env (Api.followTicker s1).
Proof.
  intros H. unfold Api.url_of. rewrite toUpperCase_idemp, H. done.
Qed.

Lemma ticker_requests_ignore_case_witness :
  Api.url_of sampleEnv (Api.followTicker "Brk.b") = Api.url_of sampleEnv (Api.followTicker "bRK.B") ∧
  Api.url_of sampleEnv (Api.getTicker "Brk.b") = "https://api.sensybull.com/tickers/BRK.B".
Proof.
  destruct (ticker_requests_ignore_case sampleEnv "Brk.b" "bRK.B") as (H1 & H2 & _).
  - reflexivity.
  - split; [exact H2 | reflexivity].
Defined.

(** ** Topic feed: what a run of [loadNext] calls keeps *)




Lemma loadNext_other_key (o : Outcome ArticlesResponse) (st : TopicFeed.State)
  (key k : string) :
  selectedKey st = Some key → k ≠ key →
  TopicFeed.articlesByTopic (TopicFeed.loadNext o st) !! k = TopicFeed.articlesByTopic st !! k ∧
  TopicFeed.page (TopicFeed.loadNext o st) !! k = TopicFeed.page st !! k ∧
  TopicFeed.hasMore (TopicFeed.loadNext o st) !! k = TopicFeed.hasMore st !! k.
Proof.
  intros Hsel Hne. unfold TopicFeed.loadNext.
  destruct (handleLoadMore_cases st) as [->|(key' & Hsel' & _ & _ & ->)]; [done|].
  assert (key' = key) as -> by congruence.
  destruct o as [resp|e]; simpl; [|done].
  by rewrite !lookup_insert_ne.
Qed.

(** The feeds of the tabs are independent: whatever a run of [loadNext]
    calls does to the selected tab, the list, the page counter and has-more
    of every other key stay as they were. *)
Theorem other_tabs_untouched
  (os : list (Outcome ArticlesResponse)) (st : TopicFeed.State) (key k : string) :
  selectedKey st = Some key → k ≠ key →
  TopicFeed.articlesByTopic (TopicFeed.loadNexts os st) !! k = TopicFeed.articlesByTopic st !! k ∧
  TopicFeed.page (TopicFeed.loadNexts os st) !! k = TopicFeed.page st !! k ∧
  TopicFeed.hasMore (TopicFeed.loadNexts os st) !! k = TopicFeed.hasMore st !! k.
Proof.
  intros Hsel Hne. unfold TopicFeed.loadNexts. revert st Hsel.
  induction os as [|o os IH]; intros st Hsel; [done|].
  simpl. destruct (loadNext_other_key o st key k Hsel Hne) as (<- & <- & <-).
  apply IH. by rewrite loadNext_selectedKey.
Qed.

Lemma loadNext_prefix (o : Outcome ArticlesResponse) (st : TopicFeed.State) (k : string) :
  TopicFeed.feed st k `prefix_of` TopicFeed.feed (TopicFeed.loadNext o st) k.
Proof.
  unfold TopicFeed.loadNext.
  destruct (handleLoadMore_cases st) as [->|(key & Hsel & Hl & Hm & ->)]; [done|].
  destruct o as [resp|e]; [|done]. simpl.
  unfold TopicFeed.feed at 2; simpl.
  destruct (decide (key = k)) as [->|Hne].
  - rewrite lookup_insert_eq; simpl. unfold TopicFeed.newArticles; simpl.
    destruct (TopicFeed.currentPage st k + 1 =? 1) eqn:E.
    + apply Z.eqb_eq in E. by apply currentPage_succ_ne_1 in E.
    + by apply prefix_app_r.
  - by rewrite lookup_insert_ne.
Qed.

(** Through any run of [loadNext] calls, failing or not, the list of every
    key only grows at its end: what was shown stays, in the same order and at
    the same positions. *)
Theorem feed_only_grows
  (os : list (Outcome ArticlesResponse)) (st : TopicFeed.State) (k : string) :
  TopicFeed.feed st k `prefix_of` TopicFeed.feed (TopicFeed.loadNexts os st) k.
Proof.
  unfold TopicFeed.loadNexts. revert st.
  induction os as [|o os IH]; intros st; [done|].
  simpl. etrans; [apply (loadNext_prefix o)|apply IH].
Qed.

Lemma loadNext_exhausted (o : Outcome ArticlesResponse) (st : TopicFeed.State)
  (t : TopicFeed.Topic) :
  TopicFeed.topics st !! TopicFeed.selectedTopicIndex st = Some t →
  TopicFeed.hasMore st !! TopicFeed.id t = Some false →
  TopicFeed.loadNext o st = st.
Proof.
  intros Ht Hm. unfold TopicFeed.loadNext.
  by rewrite (handleLoadMore_exhausted st t Ht Hm).
Qed.

(** Once the server has announced the last page of the selected tab, no
    number of [loadNext] calls changes anything; and that is the state a
    [loadNext] leaves whose response has [has_next] false. *)
Theorem exhausted_feed_stays
  (os : list (Outcome ArticlesResponse)) (st : TopicFeed.State) (t : TopicFeed.Topic)
  (resp : ArticlesResponse) :
  TopicFeed.topics st !! TopicFeed.selectedTopicIndex st = Some t →
  (TopicFeed.hasMore st !! TopicFeed.id t = Some false →
   TopicFeed.loadNexts os st = st) ∧
  (TopicFeed.loadingArticles st = false →
   TopicFeed.hasMorePages st (TopicFeed.id t) = true →
   Data.has_next (Data.pagination resp) = false →
   TopicFeed.loadNexts os (TopicFeed.loadNext (Resolved resp) st) =
     TopicFeed.loadNext (Resolved resp) st).
Proof.
  intros Ht.
  assert (∀ s, TopicFeed.topics s !! TopicFeed.selectedTopicIndex s = Some t →
               TopicFeed.hasMore s !! TopicFeed.id t = Some false →
               TopicFeed.loadNexts os s = s) as Hstay.
  { intros s Hs Hm. unfold TopicFeed.loadNexts.
    induction os as [|o os IH]; [done|].
    simpl. by rewrite (loadNext_exhausted o s t Hs Hm). }
  split; [by apply Hstay|].
  intros Hl Hm Hlast. apply Hstay.
  - unfold TopicFeed.loadNext.
    rewrite (handleLoadMore_runs st (TopicFeed.id t)); [done| |done|done].
    unfold selectedKey. by rewrite Ht.
  - unfold TopicFeed.loadNext.
    rewrite (handleLoadMore_runs st (TopicFeed.id t)); [| |done|done].
    + simpl. rewrite lookup_insert_eq. by rewrite Hlast.
    + unfold selectedKey. by rewrite Ht.
Qed.

Lemma other_tabs_untouched_witness :
  TopicFeed.articlesByTopic
    (TopicFeed.loadNexts [Resolved (pageOf (stubs 15 20) false)] twoTabsShown) !! "t7"
    = Some (stubs 100 3) ∧
  TopicFeed.hasMore
    (TopicFeed.loadNexts [Resolved (pageOf (stubs 15 20) false)] twoTabsShown) !! "t7"
    = Some false.
Proof.
  destruct (other_tabs_untouched [Resolved (pageOf (stubs 15 20) false)] twoTabsShown
              "for-you" "t7") as (H1 & _ & H3).
  - reflexivity.
  - discriminate.
  - split; [rewrite H1 | rewrite H3]; reflexivity.
Defined.

Lemma exhausted_feed_stays_witness :
  TopicFeed.loadNexts [Resolved (pageOf (stubs 20 20) true); Rejected NetworkError]
    lastPageShown = lastPageShown.
Proof.
  destruct (exhausted_feed_stays
              [Resolved (pageOf (stubs 20 20) true); Rejected NetworkError]
              lastPageShown TopicFeed.FOR_YOU_TAB (pageOf [] false)) as [H _].
  - reflexivity.
  - apply H. reflexivity.
Defined.

(** ** Topic feed: the tabs *)

(** Selecting a tab.  A tap on the tab that is already selected changes
    nothing and requests nothing, even when its key has no list (its load
    failed).  A tap on another tab selects it; when its key has a list, even
    an empty one, it is shown without any request; when its key has none
    (never loaded, or its load failed) the load of its first page starts, from
    the general feed for the Watchlist tab and from the articles of the topic
    for any other, and this whether or not another load is in flight. *)
Theorem tab_selection_loads_once
  (index : nat) (st : TopicFeed.State) (t : TopicFeed.Topic) :
  TopicFeed.topics st !! index = Some t →
  (index = TopicFeed.selectedTopicIndex st → TopicTabs.selectTab index st = (st, None)) ∧
  (is_Some (TopicFeed.articlesByTopic st !! TopicFeed.id t) →
   TopicTabs.selectTab index st = (TopicTabs.handleTopicChange index st, None)) ∧
  (index ≠ TopicFeed.selectedTopicIndex st →
   TopicFeed.articlesByTopic st !! TopicFeed.id t = None →
   ∃ p, TopicTabs.selectTab index st =
          (TopicFeed.setLoadingArticles true (TopicTabs.handleTopicChange index st), Some p) ∧
        TopicFeed.topicId p = TopicFeed.id t ∧ TopicFeed.pageNum p = 1 ∧
        TopicFeed.request p = firstPageRequest (TopicFeed.id t)).
Proof.
  intros Ht. unfold TopicTabs.selectTab, TopicFeed.onTopicSelected.
  split_and!.
  - intros Hsame. rewrite decide_True by done.
    destruct st; simpl in *. by subst.
  - intros Hsome. case_decide; [done|]. simpl. rewrite Ht.
    by rewrite bool_decide_true.
  - intros Hother Hnone. rewrite decide_False by done. simpl. rewrite Ht.
    rewrite bool_decide_false by (rewrite Hnone; by intros [? ?]).
    eexists. split; [reflexivity|]. done.
Qed.

Lemma tab_selection_loads_once_witness :
  TopicTabs.selectTab 1 twoTabsShown = (TopicTabs.handleTopicChange 1 twoTabsShown, None) ∧
  TopicFeed.request <$> (TopicTabs.selectTab 1 secondTabUnloaded).2
    = Some (Api.getTopicArticles "t7" 1 20) ∧
  TopicTabs.selectTab 0 secondTabUnloaded = (secondTabUnloaded, None).
Proof.
  destruct (tab_selection_loads_once 1 twoTabsShown
              {| TopicFeed.id := "t7"; TopicFeed.name := "Energy" |}) as (_ & H2 & _);
    [reflexivity|].
  destruct (tab_selection_loads_once 1 secondTabUnloaded
              {| TopicFeed.id := "t7"; TopicFeed.name := "Energy" |}) as (_ & _ & H3);
    [reflexivity|].
  destruct (tab_selection_loads_once 0 secondTabUnloaded TopicFeed.FOR_YOU_TAB)
    as (H1 & _); [reflexivity|].
  split_and!.
  - apply H2. by eexists.
  - destruct H3 as (p & Hsel & _ & _ & Hreq); [discriminate | reflexivity |].
    rewrite Hsel. simpl. rewrite Hreq. reflexivity.
  - by apply H1.
Defined.

(** The tabs after the followed topics were requested.  Whatever the server
    returns (topics, none, or a body without the member), the Watchlist tab is
    the first one, and with it selected and not yet loaded the effect requests
    page 1 of the general feed.  When the request fails on a screen that has
    no tabs yet, there is no tab: the effect loads nothing and
    [handleLoadMore] does nothing. *)
Theorem tabs_start_with_watchlist
  (topics : option (list TopicFeed.Topic)) (e : Thrown) (st : TopicFeed.State) :
  TopicFeed.selectedTopicIndex st = 0%nat →
  TopicFeed.articlesByTopic st !! "for-you" = None →
  TopicFeed.topics st = [] →
  let loaded := TopicTabs.loadFollowedTopics_end (Resolved topics) st in
  let failed := TopicTabs.loadFollowedTopics_end (Rejected e) st in
  TopicFeed.topics loaded = TopicFeed.FOR_YOU_TAB :: default [] topics ∧
  TopicFeed.request <$> (TopicFeed.onTopicSelected loaded).2
    = Some (Api.getArticles (pageParams 1)) ∧
  TopicFeed.onTopicSelected failed = (failed, None) ∧
  TopicFeed.handleLoadMore failed = (failed, None).
Proof.
  intros Hi Hn Ht loaded failed. split_and!.
  - unfold loaded. by destruct topics as [[|t ts]|].
  - unfold loaded, TopicFeed.onTopicSelected.
    assert (TopicFeed.topics (TopicTabs.loadFollowedTopics_end (Resolved topics) st)
              !! TopicFeed.selectedTopicIndex
                   (TopicTabs.loadFollowedTopics_end (Resolved topics) st)
            = Some TopicFeed.FOR_YOU_TAB) as ->.
    { destruct topics as [[|t ts]|]; simpl; by rewrite Hi. }
    assert (TopicFeed.articlesByTopic (TopicTabs.loadFollowedTopics_end (Resolved topics) st)
            = TopicFeed.articlesByTopic st) as ->.
    { by destruct topics as [[|t ts]|]. }
    simpl. rewrite Hn. rewrite bool_decide_false by (by intros [? ?]). done.
  - unfold failed, TopicFeed.onTopicSelected; simpl. by rewrite Ht.
  - unfold failed, TopicFeed.handleLoadMore; simpl. by rewrite Ht.
Qed.

Lemma tabs_start_with_watchlist_witness :
  TopicFeed.topics (TopicTabs.loadFollowedTopics_end (Resolved (Some [])) TopicFeed.initial)
    = [TopicFeed.FOR_YOU_TAB] ∧
  TopicFeed.handleLoadMore
    (TopicTabs.loadFollowedTopics_end (Rejected NetworkError) TopicFeed.initial)
    = (TopicFeed.initial, None).
Proof.
  destruct (tabs_start_with_watchlist (Some []) NetworkError TopicFeed.initial)
    as (H1 & _ & _ & H4); [reflexivity..|].
  split; [exact H1 | exact H4].
Defined.

(** ** Searchable home screen *)

(** A further page does not raise [loading], the flag [handleLoadMore] looks
    at: while a further page is awaited the handler asks for the same page
    again, and when both responses have arrived both pages are in the list,
    one after the other, the page counter having advanced by one. *)
Theorem home_loadMore_repeats_page
  (st : HomeFeed.State) (r1 r2 : ArticlesResponse) :
  HomeFeed.loading st = false → HomeFeed.hasMore st = true → HomeFeed.page st ≠ 0 →
  Data.has_next (Data.pagination r1) = true →
  let pn := HomeFeed.page st + 1 in
  let st1 := HomeFeed.loadArticles_end pn (Resolved r1) st in
  HomeFeed.handleLoadMore st = Some (pn, HomeFeed.searchQuery st) ∧
  HomeFeed.handleLoadMore st1 = Some (pn + 1, HomeFeed.searchQuery st) ∧
  HomeFeed.articles (HomeFeed.loadArticles_end pn (Resolved r2) st1) =
    HomeFeed.articles st ++ Data.articles r1 ++ Data.articles r2 ∧
  HomeFeed.page (HomeFeed.loadArticles_end pn (Resolved r2) st1) = pn.
Proof.
  intros Hl Hm Hp Hn pn st1. unfold HomeFeed.handleLoadMore. rewrite Hl, Hm; simpl.
  rewrite Hn. split_and!; [done | done | | done].
  destruct (pn =? 1) eqn:E; [apply Z.eqb_eq in E; unfold pn in E; lia|].
  by rewrite <- app_assoc.
Qed.

Lemma home_loadMore_repeats_page_witness :
  let shown := HomeFeed.loadFirst (Resolved (pageOf (stubs 0 20) true)) HomeFeed.initial in
  Data.ids (HomeFeed.articles
    (HomeFeed.loadArticles_end 2 (Resolved (pageOf (stubs 20 2) true))
       (HomeFeed.loadArticles_end 2 (Resolved (pageOf (stubs 20 2) true)) shown)))
  = Data.ids (stubs 0 20) ++ ["a20"; "a21"; "a20"; "a21"].
Proof.
  destruct (home_loadMore_repeats_page
              (HomeFeed.loadFirst (Resolved (pageOf (stubs 0 20) true)) HomeFeed.initial)
              (pageOf (stubs 20 2) true) (pageOf (stubs 20 2) true))
    as (_ & _ & H & _); [reflexivity | reflexivity | discriminate | reflexivity |].
  refine (eq_trans (f_equal Data.ids H) _). reflexivity.
Defined.

Lemma debounce_general_witness :
  let w := HomeFeed.type [(50, "t"); (420, "ts"); (900, "tsl"); (1399, "tsla")]
             (HomeFeed.mounted HomeFeed.initial) in
  HomeFeed.issued (HomeFeed.advance 1898 w) = [] ∧
  HomeFeed.issued (HomeFeed.advance 1899 w) = [burstRequest 1399 "tsla"].
Proof.
  split.
  - destruct (debounce_general HomeFeed.initial 50 "t"
                [(420, "ts"); (900, "tsl"); (1399, "tsla")] 1898) as (_ & H & _).
    + discriminate.
    + simpl. lia.
    + apply H. reflexivity.
  - destruct (debounce_general HomeFeed.initial 50 "t"
                [(420, "ts"); (900, "tsl"); (1399, "tsla")] 1899) as (_ & _ & H).
    + discriminate.
    + simpl. lia.
    + apply H. discriminate.
Defined.

(** ** Paged deck *)

Lemma findIndex_Some (i : string) (l : list Article) (n : nat) :
  SwipeFeed.findIndex i l = Some n ↔
  (∃ a, l !! n = Some a ∧ Data.id a = i) ∧
  ∀ m b, l !! m = Some b → (m < n)%nat → Data.id b ≠ i.
Proof.
  unfold SwipeFeed.findIndex. split.
  - destruct (list_find _ l) as [[n' a]|] eqn:E; [|done]. simpl. intros [= <-].
    apply list_find_Some in E as (Hl & Hp & Hfirst). split; [eauto|]. eauto.
  - intros [(a & Hl & Hp) Hfirst].
    assert (list_find (λ a, Data.id a = i) l = Some (n, a)) as ->; [|done].
    apply list_find_Some. split_and!; [done | done |]. intros j y Hj Hlt. by apply (Hfirst j).
Qed.

Lemma findIndex_None (i : string) (l : list Article) :
  SwipeFeed.findIndex i l = None ↔ i ∉ Data.ids l.
Proof.
  unfold SwipeFeed.findIndex. destruct (list_find _ l) as [[n a]|] eqn:E; simpl.
  - split; [done|]. intros Hn. destruct Hn.
    apply list_find_Some in E as (Hl & Hp & _).
    apply list_elem_of_fmap. exists a. split; [done|]. by eapply list_elem_of_lookup_2.
  - split; [|done]. intros _ Hin.
    apply list_find_None in E. apply list_elem_of_fmap in Hin as (a & -> & Hin).
    rewrite Forall_forall in E. by apply (E a).
Qed.

(** A deck opened on an article: when the first page holds an article with
    that id, the deck moves to the first such article (the card at the new
    index has the id and no card before it has); when it holds none, the
    index stays where it was. *)
Theorem deck_opens_at_article
  (p : SwipeFeed.Params) (i : string) (resp : ArticlesResponse) (st : SwipeFeed.State) :
  SwipeFeed.articleId p = Some i → i ≠ "" →
  let st' := SwipeFeed.loadArticles_end p 1 (Resolved resp) st in
  SwipeFeed.articles st' = Data.articles resp ∧
  (i ∈ Data.ids (Data.articles resp) →
   ∃ n a, SwipeFeed.currentIndex st' = Z.of_nat n ∧
          SwipeFeed.articles st' !! n = Some a ∧ Data.id a = i ∧
          ∀ m b, SwipeFeed.articles st' !! m = Some b → (m < n)%nat → Data.id b ≠ i) ∧
  (i ∉ Data.ids (Data.articles resp) →
   SwipeFeed.currentIndex st' = SwipeFeed.currentIndex st).
Proof.
  intros Hid Hne st'. unfold st', SwipeFeed.loadArticles_end; simpl. rewrite Hid.
  assert (truthy_str i = true) as -> by (unfold truthy_str; by apply bool_decide_eq_true).
  split_and!; [done| |].
  - intros Hin.
    destruct (SwipeFeed.findIndex i (Data.articles resp)) as [n|] eqn:E.
    + apply findIndex_Some in E as [(a & Hl & Hp) Hfirst]. exists n, a. done.
    + apply findIndex_None in E. done.
  - intros Hnotin. apply findIndex_None in Hnotin. by rewrite Hnotin.
Qed.

Lemma deck_opens_at_article_witness :
  SwipeFeed.currentIndex
    (SwipeFeed.loadArticles_end deckParams 1 (Resolved (pageOf (stubs 0 20) true))
       SwipeFeed.initial) = 7 ∧
  SwipeFeed.currentIndex
    (SwipeFeed.loadArticles_end deckParams 1 (Resolved (pageOf (stubs 20 20) true))
       SwipeFeed.initial) = 0.
Proof.
  split.
  - destruct (deck_opens_at_article deckParams "a7" (pageOf (stubs 0 20) true)
                SwipeFeed.initial) as (_ & _ & _); [reflexivity | discriminate |].
    reflexivity.
  - destruct (deck_opens_at_article deckParams "a7" (pageOf (stubs 20 20) true)
                SwipeFeed.initial) as (_ & _ & H); [reflexivity | discriminate |].
    apply H. apply (bool_decide_unpack _). vm_compute. exact I.
Defined.

(** A deck opened on a topic shows that topic on its first page only: page
    1 is requested from the articles of the topic, and every further page,
    whatever the topic, from the general feed. *)
Theorem topic_deck_continues_with_general_feed
  (p : SwipeFeed.Params) (t : string) (pn : Z) :
  SwipeFeed.topicId p = Some t → t ≠ "" → t ≠ "for-you" → pn ≠ 1 →
  SwipeFeed.loadArticles_request p 1 = Api.getTopicArticles t 1 20 ∧
  SwipeFeed.loadArticles_request p pn = Api.getArticles (pageParams pn) ∧
  ∀ st op, SwipeFeed.page st + 1 = pn → (SwipeFeed.onEndReached p st).2 = Some op →
    op = Api.getArticles (pageParams pn).
Proof.
  intros Ht Hne Hfy Hpn.
  assert (SwipeFeed.loadArticles_request p pn = Api.getArticles (pageParams pn)) as Hreq.
  { unfold SwipeFeed.loadArticles_request. rewrite Ht.
    destruct (pn =? 1) eqn:E; [apply Z.eqb_eq in E; done|].
    by rewrite andb_false_r. }
  split_and!; [|done|].
  - unfold SwipeFeed.loadArticles_request. rewrite Ht.
    unfold truthy_str. by rewrite !bool_decide_true.
  - intros st op Hp. unfold SwipeFeed.onEndReached.
    destruct (_ && _); simpl; [|done]. rewrite Hp, Hreq. by intros [= <-].
Qed.

Lemma topic_deck_continues_with_general_feed_witness :
  SwipeFeed.loadArticles_request deckParams 1 = Api.getTopicArticles "t7" 1 20 ∧
  SwipeFeed.loadArticles_request deckParams 2 = Api.getArticles (pageParams 2).
Proof.
  destruct (topic_deck_continues_with_general_feed deckParams "t7" 2) as (H1 & H2 & _);
    [reflexivity | discriminate | discriminate | discriminate |].
  split; [exact H1 | exact H2].
Defined.

(** The deck loads a further page only when none is being fetched and the
    list holds at least 20 articles: a deck whose first page is shorter than
    20 never asks for another page, and reaching the end while a page is
    being fetched asks for nothing. *)
Theorem short_deck_never_loads (p : SwipeFeed.Params) (st : SwipeFeed.State) :
  SwipeFeed.fetchingMore st = true ∨ (length (SwipeFeed.articles st) < 20)%nat →
  SwipeFeed.onEndReached p st = (st, None).
Proof.
  intros H. unfold SwipeFeed.onEndReached. destruct H as [->|H]; [done|].
  destruct (20 <=? _) eqn:E; [apply Z.leb_le in E; lia|]. by rewrite andb_false_r.
Qed.

Lemma short_deck_never_loads_witness :
  let shown := SwipeFeed.loadArticles_end deckParams 1 (Resolved (pageOf (stubs 0 19) true))
                 SwipeFeed.initial in
  SwipeFeed.onEndReached deckParams shown = (shown, None).
Proof.
  apply (short_deck_never_loads deckParams). right.
  apply (bool_decide_unpack _). vm_compute. exact I.
Defined.



(** ** Watchlist *)

(** Searching the watchlist: a query that trims to nothing makes no
    request, empties the results and leaves search mode; any other query is
    sent as it was typed, for page 1 with 20 results, and raises the
    searching flag. *)
Theorem watchlist_search_blank (query : string) (st : Watchlist.State) :
  (trim query = "" →
   (Watchlist.handleSearch_begin query st).2 = None ∧
   Watchlist.searchResults (Watchlist.handleSearch_begin query st).1 = [] ∧
   Watchlist.isSearchMode (Watchlist.handleSearch_begin query st).1 = false ∧
   Watchlist.watchlist (Watchlist.handleSearch_begin query st).1 = Watchlist.watchlist st) ∧
  (trim query ≠ "" →
   (Watchlist.handleSearch_begin query st).2 = Some (Api.searchTickers query 1 20) ∧
   Watchlist.searching (Watchlist.handleSearch_begin query st).1 = true ∧
   Watchlist.isSearchMode (Watchlist.handleSearch_begin query st).1 = true ∧
   Watchlist.searchResults (Watchlist.handleSearch_begin query st).1
     = Watchlist.searchResults st).
Proof.
  unfold Watchlist.handleSearch_begin. split.
  - intros H. apply truthy_str_false in H. by rewrite H.
  - intros H. destruct (truthy_str (trim query)) eqn:E; [done|].
    by apply truthy_str_false in E.
Qed.

Lemma watchlist_search_blank_witness :
  Watchlist.handleSearch_begin "  " watching =
    ({| Watchlist.watchlist := [aapl]; Watchlist.searchQuery := "  ";
        Watchlist.searchResults := []; Watchlist.loading := false;
        Watchlist.searching := false; Watchlist.isSearchMode := false |}, None) ∧
  (Watchlist.handleSearch_begin " tes" watching).2 = Some (Api.searchTickers " tes" 1 20).
Proof.
  destruct (watchlist_search_blank " tes" watching) as [_ H].
  split; [reflexivity | apply H; discriminate].
Defined.

Lemma filter_id_not_in (t : Watchlist.Ticker) (l : list Watchlist.Ticker) :
  Watchlist.id t ∉ Watchlist.id <$> l →
  filter (λ x, Watchlist.id x ≠ Watchlist.id t) l = l.
Proof.
  induction l as [|x l IH]; [done|].
  rewrite fmap_cons, not_elem_of_cons. intros [Hne Hnotin].
  rewrite filter_cons. rewrite decide_True by done. by rewrite IH.
Qed.

(** Following and unfollowing from the watchlist screen.  A follow that
    succeeds puts the ticker at the end of the watchlist and takes every
    ticker with its id out of the search results; an unfollow that succeeds
    takes every ticker with its id out of the watchlist; either one failing
    changes nothing.  Unfollowing a ticker right after following it restores
    the watchlist when its id was not listed before; and the list is not
    checked on a follow, so that following a ticker twice lists it twice. *)
Theorem watchlist_follow_unfollow
  (t : Watchlist.Ticker) (a b : Json) (e : Thrown) (st : Watchlist.State) :
  let followed := Watchlist.handleFollowTicker_end t (Resolved a) st in
  Watchlist.watchlist followed = Watchlist.watchlist st ++ [t] ∧
  Watchlist.id t ∉ Watchlist.id <$> Watchlist.searchResults followed ∧
  Watchlist.id t ∉ Watchlist.id <$>
    Watchlist.watchlist (Watchlist.handleUnfollowTicker_end t (Resolved b) st) ∧
  Watchlist.handleFollowTicker_end t (Rejected e) st = st ∧
  Watchlist.handleUnfollowTicker_end t (Rejected e) st = st ∧
  (Watchlist.id t ∉ Watchlist.id <$> Watchlist.watchlist st →
   Watchlist.watchlist (Watchlist.handleUnfollowTicker_end t (Resolved b) followed)
     = Watchlist.watchlist st) ∧
  Watchlist.watchlist (Watchlist.handleFollowTicker_end t (Resolved b) followed)
    = Watchlist.watchlist st ++ [t; t].
Proof.
  assert (∀ l : list Watchlist.Ticker,
            Watchlist.id t ∉ Watchlist.id <$> filter (λ x, Watchlist.id x ≠ Watchlist.id t) l)
    as Hgone.
  { intros l Hin. apply list_elem_of_fmap in Hin as (x & Hx & Hin).
    apply list_elem_of_filter in Hin as [Hne _]. by apply Hne. }
  simpl. split_and!; [done | apply Hgone | apply Hgone | done | done | | ].
  - intros Hnew. rewrite filter_app, filter_id_not_in by done.
    rewrite filter_cons, filter_nil. rewrite decide_False by (intros H; by apply H).
    by rewrite app_nil_r.
  - by rewrite <- app_assoc.
Qed.

Lemma watchlist_follow_unfollow_witness :
  Watchlist.watchlist
    (Watchlist.handleUnfollowTicker_end msft (Resolved JNull)
       (Watchlist.handleFollowTicker_end msft (Resolved JNull) watching)) = [aapl] ∧
  Watchlist.searchResults (Watchlist.handleFollowTicker_end msft (Resolved JNull) watching)
    = [].
Proof.
  destruct (watchlist_follow_unfollow msft JNull JNull NetworkError watching)
    as (_ & _ & _ & _ & _ & H & _).
  split; [apply H; apply (bool_decide_unpack _); vm_compute; exact I | reflexivity].
Defined.

(** ** Stock screen: the star *)



(** Tapping the star: without a loaded ticker nothing is requested; with
    one, the flag chooses between unfollow and follow of the symbol of the
    ticker; a success inverts the flag, a failure keeps it, and two successes
    restore it. *)
Theorem star_toggle (a b : Json) (e : Thrown) (st : StockHeader.State) (t : Watchlist.Ticker) :
  (StockHeader.ticker st = None →
   StockHeader.handleToggleFollow_begin st = None ∧
   StockHeader.toggleFollow (Resolved a) st = st) ∧
  (StockHeader.ticker st = Some t →
   StockHeader.handleToggleFollow_begin st =
     Some (if StockHeader.isFollowing st then Api.unfollowTicker (Watchlist.symbol t)
           else Api.followTicker (Watchlist.symbol t)) ∧
   StockHeader.isFollowing (StockHeader.toggleFollow (Resolved a) st)
     = negb (StockHeader.isFollowing st) ∧
   StockHeader.toggleFollow (Rejected e) st = st ∧
   StockHeader.toggleFollow (Resolved b) (StockHeader.toggleFollow (Resolved a) st) = st).
Proof.
  unfold StockHeader.toggleFollow, StockHeader.handleToggleFollow_begin. split.
  - by intros ->.
  - destruct st as [s tk f]; simpl. intros ->; simpl.
    by rewrite negb_involutive.
Qed.

Lemma star_toggle_witness :
  let st := {| StockHeader.symbol := "AAPL"; StockHeader.ticker := Some aapl;
               StockHeader.isFollowing := true |} in
  StockHeader.handleToggleFollow_begin st = Some (Api.unfollowTicker "AAPL") ∧
  StockHeader.isFollowing (StockHeader.toggleFollow (Resolved JNull) st) = false.
Proof.
  destruct (star_toggle JNull JNull NetworkError
              {| StockHeader.symbol := "AAPL"; StockHeader.ticker := Some aapl;
                 StockHeader.isFollowing := true |} aapl) as [_ H].
  destruct H as (H1 & H2 & _); [reflexivity|].
  split; [exact H1 | exact H2].
Defined.

(** ** Card colours *)

Lemma toInt32_range (z : Z) : - 2 ^ 31 ≤ Palette.toInt32 z < 2 ^ 31.
Proof. unfold Palette.toInt32. pose proof (Z.mod_pos_bound (z + 2 ^ 31) (2 ^ 32)). lia. Qed.

Lemma simpleHash_from_range (str : string) (hash : Z) :
  - 2 ^ 31 ≤ hash < 2 ^ 31 → - 2 ^ 31 ≤ Palette.simpleHash_from hash str < 2 ^ 31.
Proof.
  revert hash. induction str as [|c str IH]; intros hash Hh; [done|].
  simpl. apply IH, toInt32_range.
Qed.

(** The colour computed for a card: the hash of any text is a whole number
    from 0 to 2^31 (the loop keeps it in the 32-bit range and the absolute
    value is taken at the end), so each of the three channels lies between
    50 and 149 and the colour is a valid, muted rgb triple. *)
Theorem card_colour_in_range (str : string) :
  0 ≤ Palette.simpleHash str ≤ 2 ^ 31 ∧
  (50 ≤ (Palette.channels (Palette.simpleHash str)).1.1 ≤ 149) ∧
  (50 ≤ (Palette.channels (Palette.simpleHash str)).1.2 ≤ 149) ∧
  (50 ≤ (Palette.channels (Palette.simpleHash str)).2 ≤ 149).
Proof.
  assert (0 ≤ Palette.simpleHash str ≤ 2 ^ 31) as Hh.
  { unfold Palette.simpleHash.
    pose proof (simpleHash_from_range str 0 ltac:(lia)). lia. }
  split; [done|]. unfold Palette.channels; simpl.
  pose proof (Z.rem_bound_pos (Palette.simpleHash str) 100 ltac:(lia) ltac:(lia)).
  pose proof (Z.rem_bound_pos (Palette.simpleHash str * 2) 100 ltac:(lia) ltac:(lia)).
  pose proof (Z.rem_bound_pos (Palette.simpleHash str * 3) 100 ltac:(lia) ltac:(lia)).
  lia.
Qed.

(** The colour cache.  A call made by a render that sees a colour for the
    image changes nothing.  A call made by a render that sees none writes,
    when the image has been manipulated, the colour it found (the fallback
    colour when the manipulation failed or gave no data), whatever the cache
    holds for the image by then: of two calls that both saw no colour, the
    one that ends last decides, and a call made once the colour is seen
    changes nothing.  The colours of other images are never touched. *)
Theorem card_colour_cache
  (imageUri : string) (seen imageColors : gmap string string)
  (o o' : Outcome (option string)) :
  let written := Palette.extractLeastDominantColor imageUri seen o imageColors in
  (is_Some (seen !! imageUri) → written = imageColors) ∧
  (seen !! imageUri = None →
   written !! imageUri = Some (Palette.colorOf o) ∧
   Palette.extractLeastDominantColor imageUri seen o' written !! imageUri
     = Some (Palette.colorOf o') ∧
   Palette.extractLeastDominantColor imageUri written o' written = written) ∧
  (∀ other, other ≠ imageUri → written !! other = imageColors !! other) ∧
  (∀ e, Palette.colorOf (Rejected e) = "#1a1a1a") ∧
  Palette.colorOf (Resolved None) = "#1a1a1a" ∧
  Palette.colorOf (Resolved (Some "")) = "#1a1a1a".
Proof.
  simpl. unfold Palette.extractLeastDominantColor. split_and!; try done.
  - intros Hseen. by rewrite bool_decide_eq_true_2.
  - intros Hnone.
    rewrite !(bool_decide_eq_false_2 (is_Some (seen !! imageUri)))
      by (rewrite Hnone; by intros [? ?]).
    rewrite !lookup_insert_eq. split_and!; [done | done |].
    by rewrite bool_decide_eq_true_2 by eauto.
  - intros other Hne. case_bool_decide; [done|]. by rewrite lookup_insert_ne.
Qed.

Lemma card_colour_cache_witness :
  Palette.extractLeastDominantColor "img" ∅ (Resolved (Some "iVBOR"))
    (Palette.extractLeastDominantColor "img" ∅ (Rejected NetworkError) ∅) !! "img"
  = Some "rgb(138, 126, 114)" ∧
  Palette.extractLeastDominantColor "img" ∅ (Rejected NetworkError) ∅ !! "img"
  = Some "#1a1a1a".
Proof.
  destruct (card_colour_cache "img" ∅ ∅ (Rejected NetworkError) (Resolved (Some "iVBOR")))
    as (_ & H & _).
  destruct H as (H1 & H2 & _); [reflexivity|].
  split.
  - rewrite H2. vm_compute. reflexivity.
  - rewrite H1. reflexivity.
Defined.

(** ** Relative times *)

(** What [formatTimestamp] shows for an article [age] milliseconds old: Just
    now below one minute (also for a time in the future); whole minutes from
    1 to 59, whole hours from 1 to 23, whole days from 1 to 6, each rounded
    down and in the singular exactly for 1; the calendar date from seven days
    on. *)
Theorem relative_time_label (now timestamp : Z) :
  let age := now - timestamp in
  match RelativeTime.formatTimestamp now timestamp with
  | RelativeTime.JustNow => age < 60000
  | RelativeTime.Ago n unit =>
      (unit = (if decide (n = 1) then "minute" else "minutes") ∧
       1 ≤ n ≤ 59 ∧ 60000 * n ≤ age < 60000 * (n + 1))
      ∨ (unit = (if decide (n = 1) then "hour" else "hours") ∧
         1 ≤ n ≤ 23 ∧ 3600000 * n ≤ age < 3600000 * (n + 1))
      ∨ (unit = (if decide (n = 1) then "day" else "days") ∧
         1 ≤ n ≤ 6 ∧ 86400000 * n ≤ age < 86400000 * (n + 1))
  | RelativeTime.LocaleDate t => t = timestamp ∧ 604800000 ≤ age
  end.
Proof.
  simpl. unfold RelativeTime.formatTimestamp.
  set (age := now - timestamp).
  set (m := age / 60000). set (h := m / 60). set (d := h / 24).
  assert (60000 * m ≤ age < 60000 * (m + 1)) as Hm.
  { unfold m. pose proof (Z.div_mod age 60000 ltac:(lia)).
    pose proof (Z.mod_pos_bound age 60000 ltac:(lia)). lia. }
  assert (60 * h ≤ m < 60 * (h + 1)) as Hh.
  { unfold h. pose proof (Z.div_mod m 60 ltac:(lia)).
    pose proof (Z.mod_pos_bound m 60 ltac:(lia)). lia. }
  assert (24 * d ≤ h < 24 * (d + 1)) as Hd.
  { unfold d. pose proof (Z.div_mod h 24 ltac:(lia)).
    pose proof (Z.mod_pos_bound h 24 ltac:(lia)). lia. }
  clearbody m h d age.
  destruct (Z.ltb_spec m 1); [lia|].
  destruct (Z.ltb_spec m 60).
  { left. split; [|lia]. destruct (Z.eqb_spec m 1), (decide (m = 1)); done || lia. }
  destruct (Z.ltb_spec h 24).
  { right; left. split; [|lia]. destruct (Z.eqb_spec h 1), (decide (h = 1)); done || lia. }
  destruct (Z.ltb_spec d 7).
  { right; right. split; [|lia]. destruct (Z.eqb_spec d 1), (decide (d = 1)); done || lia. }
  split; [done | lia].
Qed.

(** ** Chat *)

(** A send that is accepted, followed to its end with no other event in
    between: the transcript grows by exactly two messages, the trimmed text
    of the user and then the reply of the provider, or the apology when the
    provider failed; the input box is empty and the loading flag is down
    again. *)
Theorem send_round_trip
  (now now' : Z) (messageText : option string) (o : Outcome string) (st : Chat.State) :
  trim (Chat.effectiveText messageText st) ≠ "" →
  Chat.isLoading st = false →
  let sent := (Chat.handleSendMessage_begin now messageText st st).1 in
  let answered := Chat.handleSendMessage_end now' o sent in
  Chat.content <$> Chat.messages answered =
    (Chat.content <$> Chat.messages st) ++
      [trim (Chat.effectiveText messageText st);
       match o with Resolved response => response | Rejected _ => apology end] ∧
  Chat.role <$> Chat.messages answered =
    (Chat.role <$> Chat.messages st) ++ [Groq.user; Groq.assistant] ∧
  Chat.inputText answered = "" ∧
  Chat.isLoading answered = false.
Proof.
  intros Ht Hl. simpl. unfold Chat.handleSendMessage_begin.
  rewrite Hl. destruct (truthy_str _) eqn:E;
    [|by apply truthy_str_false in E].
  simpl. rewrite !fmap_app, <- !app_assoc. simpl.
  split_and!; [by destruct o | done | done | done].
Qed.

Lemma send_round_trip_witness :
  Chat.content <$> Chat.messages
    (Chat.handleSendMessage_end 9 (Rejected NetworkError)
       (Chat.handleSendMessage_begin 5 (Some " hi ") plainChat plainChat).1) =
  ["Hi! I'm Sensybull. How can I help you today?"; "hi"; apology].
Proof.
  destruct (send_round_trip 5 9 (Some " hi ") (Rejected NetworkError) plainChat)
    as (H & _); [discriminate | reflexivity |].
  exact H.
Defined.

(** What the completion provider is sent for an accepted send: the system
    messages of the service first, the general instruction being the last of
    them; then the transcript the handler saw, without its system messages
    and in its order; and last the trimmed text of the user.  No system
    message comes after the first non-system one. *)
Theorem provider_receives
  (now : Z) (messageText : option string) (seen st : Chat.State)
  (c : Groq.Call) (ms : list Groq.Message) :
  (Chat.handleSendMessage_begin now messageText seen st).2 = Some c →
  GroqService.requestMessages c = Some ms →
  ∃ sys hist,
    ms = sys ++ hist ++
           [{| Groq.role := Groq.user;
               Groq.content := trim (Chat.effectiveText messageText seen) |}] ∧
    Forall (λ m, Groq.role m = Groq.system) sys ∧
    List.last sys GroqService.instruction = GroqService.instruction ∧
    (Chat.articleContext seen = None → sys = [GroqService.instruction]) ∧
    Forall (λ m, Groq.role m ≠ Groq.system) hist ∧
    Groq.content <$> hist =
      Chat.content <$> filter (λ m, Chat.role m ≠ Groq.system) (Chat.messages seen).
Proof.
  unfold Chat.handleSendMessage_begin.
  destruct (negb _ || _); [done|]. simpl. intros [= <-].
  unfold GroqService.requestMessages; simpl.
  destruct (GroqService.systemMessages (Chat.articleContext seen)) as [sys|] eqn:Hs;
    [|done].
  simpl. intros [= <-]. eexists sys, _. split; [reflexivity|].
  assert (sys = [GroqService.instruction] ∨
          ∃ text, sys = [{| Groq.role := Groq.system; Groq.content := text |};
                         GroqService.instruction]) as Hsys.
  { unfold GroqService.systemMessages in Hs.
    destruct (truthy _); [|left; congruence].
    destruct (GroqService.asArticleContext _); simpl in Hs; [|done].
    right. eexists. by injection Hs as <-. }
  split_and!.
  - destruct Hsys as [-> | [text ->]]; repeat constructor.
  - by destruct Hsys as [-> | [text ->]].
  - intros Hnone. unfold GroqService.systemMessages in Hs. rewrite Hnone in Hs.
    simpl in Hs. congruence.
  - apply Forall_fmap, Forall_forall. intros m Hm.
    apply list_elem_of_filter in Hm as [Hm _]. exact Hm.
  - rewrite <- list_fmap_compose. by apply list_fmap_ext.
Qed.

Lemma provider_receives_witness :
  GroqService.requestMessages
    {| Groq.messages :=
         [{| Groq.role := Groq.assistant;
             Groq.content := "Hi! I'm Sensybull. How can I help you today?" |};
          {| Groq.role := Groq.user; Groq.content := "hi" |}];
       Groq.articleContext := None |}
  = Some [GroqService.instruction;
          {| Groq.role := Groq.assistant;
             Groq.content := "Hi! I'm Sensybull. How can I help you today?" |};
          {| Groq.role := Groq.user; Groq.content := "hi" |}] ∧
  ∃ sys hist,
    [GroqService.instruction;
     {| Groq.role := Groq.assistant;
        Groq.content := "Hi! I'm Sensybull. How can I help you today?" |};
     {| Groq.role := Groq.user; Groq.content := "hi" |}]
    = sys ++ hist ++ [{| Groq.role := Groq.user; Groq.content := "hi" |}] ∧
    sys = [GroqService.instruction].
Proof.
  split; [reflexivity|].
  destruct (provider_receives 5 (Some " hi ") plainChat plainChat _ _
              eq_refl eq_refl) as (sys & hist & H1 & _ & _ & H4 & _).
  exists sys, hist. split; [exact H1 | by apply H4].
Defined.

(** The question a link carries is sent by the handler of the first render,
    which has an empty transcript: the provider receives the question alone,
    without the welcome message that the screen shows above it, whereas a
    later send from the screen carries the whole transcript. *)
Theorem initial_question_skips_welcome
  (now now' : Z) (p : Chat.Params) (st : Chat.State) (q : string) :
  Chat.ChatScreen now p = (st, Some q) →
  trim q ≠ "" →
  let sent := Chat.handleSendMessage_begin now' (Some q) (Chat.render p) st in
  Groq.messages <$> sent.2 = Some [{| Groq.role := Groq.user; Groq.content := trim q |}] ∧
  Chat.role <$> Chat.messages sent.1 = [Groq.assistant; Groq.user] ∧
  (∀ now2 text, trim text ≠ "" →
     Groq.messages <$>
       (Chat.handleSendMessage_begin now2 (Some text) st st).2 =
     Some (((λ m, {| Groq.role := Chat.role m; Groq.content := Chat.content m |})
              <$> Chat.messages st)
             ++ [{| Groq.role := Groq.user; Groq.content := trim text |}])).
Proof.
  unfold Chat.ChatScreen, Chat.mount. intros Hm Hq.
  destruct (Chat.welcomeContent _) as [w|]; [|done].
  injection Hm as <- Hi. simpl.
  assert (Chat.initialQuestion (Chat.render p) = q) as Hiq.
  { by destruct (truthy_str _); [injection Hi|]. }
  assert (q ≠ "") as Hne by (by intros ->).
  assert (∀ s other, s ≠ "" → or_str s other = s) as Hor.
  { intros s other Hs. unfold or_str. destruct (truthy_str s) eqn:E; [done|].
    by apply truthy_str_false in E. }
  assert (∀ s, trim s ≠ "" → s ≠ "") as Htrim by (by intros s H ->).
  unfold Chat.handleSendMessage_begin, Chat.effectiveText. simpl.
  rewrite Hor by done.
  destruct (truthy_str (trim q)) eqn:E; [|by apply truthy_str_false in E].
  simpl. split_and!; [done | done |].
  intros now2 text Ht. rewrite (Hor text) by auto.
  destruct (truthy_str (trim text)) eqn:E'; [|by apply truthy_str_false in E'].
  simpl. done.
Qed.

Lemma initial_question_skips_welcome_witness :
  Groq.messages <$>
    (Chat.handleSendMessage_begin 500 (Some "Why did it fall?")
       (Chat.render {| Chat.context := None; Chat.question := Some "Why did it fall?" |})
       (Chat.ChatScreen 0
          {| Chat.context := None; Chat.question := Some "Why did it fall?" |}).1).2
  = Some [{| Groq.role := Groq.user; Groq.content := "Why did it fall?" |}].
Proof.
  destruct (initial_question_skips_welcome 0 500
              {| Chat.context := None; Chat.question := Some "Why did it fall?" |}
              _ "Why did it fall?" eq_refl) as (H & _); [discriminate|].
  exact H.
Defined.

(** The text taken from a completion: whatever the body of the response, a
    reply that is produced is never empty, null, zero or false, the fixed text
    No response generated standing in for such a content and for a body
    without a first choice; a non-empty content of the first choice is
    returned as it is; and only a body without [choices] makes the service
    fail.  The same holds for the [response] member read by the backend
    variant. *)
Theorem reply_never_empty (data v : Json) (s : string) :
  (GroqService.reply data = Resolved v → truthy (Some v) = true) ∧
  (ChatService.reply data = Resolved v → truthy (Some v) = true) ∧
  (s ≠ "" → GroqService.reply (completion (JStr s)) = Resolved (JStr s)) ∧
  GroqService.reply (completion (JStr "")) = Resolved (JStr "No response generated") ∧
  GroqService.reply (JObj [("choices", JArr [])]) = Resolved (JStr "No response generated") ∧
  GroqService.reply (JObj [("error", JStr s)]) = Rejected TypeError ∧
  ChatService.reply (JObj [("error", JStr s)]) = Resolved (JStr "No response generated").
Proof.
  assert (∀ c : option Json,
            truthy (Some (if truthy c then default JNull c
                          else JStr "No response generated")) = true) as Hor.
  { intros c. destruct (truthy c) eqn:E; [|done]. by destruct c. }
  split_and!; try done.
  - unfold GroqService.reply.
    destruct (prop data "choices") as [[[]|]|]; intros [= <-]; done || apply Hor.
  - unfold ChatService.reply.
    destruct (prop data "response") as [r|]; intros [= <-]. apply Hor.
  - intros Hs. unfold GroqService.reply, completion. simpl.
    destruct (truthy_str s) eqn:E; [done|]. by apply truthy_str_false in E.
Qed.

Lemma reply_never_empty_witness :
  GroqService.reply (completion (JStr "Shares fell 3%.")) = Resolved (JStr "Shares fell 3%.") ∧
  truthy (Some (JStr "Shares fell 3%.")) = true.
Proof.
  destruct (reply_never_empty (completion (JStr "Shares fell 3%.")) (JStr "Shares fell 3%.")
              "Shares fell 3%.") as (H1 & _ & H3 & _).
  split; [apply H3; discriminate | apply H1, H3; discriminate].
Defined.

(** ** Chat: a send during a send *)

(** C9, at the input on which the code departs from it.  The chat is opened
    by a link that carries a question.  The user types hi and submits it
    100 ms after the screen appeared: the provider is called and the loading
    flag is up.  500 ms after the mount, while that send is in flight, the
    timer of the mount effect calls the handler of the first render with the
    question; that handler reads the [isLoading] of the first render, which
    is false: the question is accepted, the transcript grows by it and the
    provider is called a second time. *)
Theorem initial_question_overlaps_send :
  let shown := (Chat.ChatScreen 0 questionLink).1 in
  let sending :=
    Chat.handleSendMessage_begin 100 None (setInputText "hi" shown) (setInputText "hi" shown) in
  let timer :=
    Chat.handleSendMessage_begin 500 (Some "Why did it fall?") (Chat.render questionLink)
      sending.1 in
  (Chat.ChatScreen 0 questionLink).2 = Some "Why did it fall?" ∧
  Chat.isLoading sending.1 = true ∧
  Groq.messages <$> sending.2 =
    Some [{| Groq.role := Groq.assistant;
             Groq.content := "Hi! I'm Sensybull. How can I help you today?" |};
          {| Groq.role := Groq.user; Groq.content := "hi" |}] ∧
  Chat.content <$> Chat.messages sending.1 =
    ["Hi! I'm Sensybull. How can I help you today?"; "hi"] ∧
  Chat.content <$> Chat.messages timer.1 =
    ["Hi! I'm Sensybull. How can I help you today?"; "hi"; "Why did it fall?"] ∧
  Groq.messages <$> timer.2 =
    Some [{| Groq.role := Groq.user; Groq.content := "Why did it fall?" |}].
Proof. vm_compute. repeat split. Qed.
